(** * The request admission and error-normalisation pipeline of server.js

    A shallow embedding of the middleware chain that [server.js] (and its two
    deployment variants) registers on the Express application: cookie secret,
    rate limiter, CORS origin callback, error-handling middleware and 404
    handler, together with the order in which [app.use] mounts them. *)

From Stdlib Require Import ZArith Lia Ascii String.
From stdpp Require Import base option list strings pretty gmap.

Set Warnings "-register-all".
Local Open Scope string_scope.
Local Open Scope Z_scope.

(** ** JavaScript values *)

(** The values that flow through the handlers.  Numbers are the integers
    (HTTP status codes; fractions and NaN are left out); an object is the
    list of its properties as a property read sees them, own and inherited
    ones alike; there are no function values. *)
Inductive JsVal : Type :=
  | JUndefined
  | JNull
  | JBool (b : bool)
  | JNum (n : Z)
  | JStr (s : string)
  | JArr (items : list JsVal)
  | JObj (props : list (string * JsVal)).

(** ToBoolean, as [!v] and [v || w] apply it. *)
Definition truthy (v : JsVal) : bool :=
  match v with
  | JUndefined | JNull => false
  | JBool b => b
  | JNum n => negb (n =? 0)
  | JStr s => negb (String.eqb s "")
  | JArr _ | JObj _ => true
  end.

(** A header or environment variable: a string, or [undefined]. *)
Definition str_val (v : option string) : JsVal :=
  match v with
  | None => JUndefined
  | Some s => JStr s
  end.

(** [a || b] *)
Definition js_or (a b : JsVal) : JsVal := if truthy a then a else b.

(** [v === 'lit'] against a string literal *)
Definition is_str (v : JsVal) (lit : string) : bool :=
  match v with
  | JStr s => String.eqb s lit
  | _ => false
  end.

(** Own-or-inherited property of an object literal / record. *)
Fixpoint assoc (k : string) (ps : list (string * JsVal)) : option JsVal :=
  match ps with
  | [] => None
  | (k', v) :: ps' => if String.eqb k k' then Some v else assoc k ps'
  end.

(** ** Outcomes of JavaScript code that may throw *)

(** What the code of this file can throw: a TypeError of the language, or
    the RangeError with which Node refuses a status code
    (ERR_HTTP_INVALID_STATUS_CODE). *)
Inductive Exn : Type :=
  | TypeError (what : string)
  | InvalidStatusCode (status : JsVal).

(** An evaluation returns a value or throws. *)
Inductive Completion (A : Type) : Type :=
  | Normal (a : A)
  | Throw (e : Exn).
Arguments Normal {A} a.
Arguments Throw {A} e.

(** Sequencing: a throw skips what follows. *)
#[global] Instance completion_bind : MBind Completion := fun A B k c =>
  match c with
  | Normal a => k a
  | Throw e => Throw e
  end.

(** [e.message] for an element [e] of [err.errors]: reading a property of
    [undefined] or [null] throws; a primitive or an array has no [message]. *)
Definition item_message (e : JsVal) : Completion JsVal :=
  match e with
  | JUndefined => Throw (TypeError "Cannot read properties of undefined (reading 'message')")
  | JNull => Throw (TypeError "Cannot read properties of null (reading 'message')")
  | JObj ps => Normal (default JUndefined (assoc "message" ps))
  | _ => Normal JUndefined
  end.

(** [items.map(e => e.message)], left to right; the first throw aborts. *)
Fixpoint map_messages (items : list JsVal) : Completion (list JsVal) :=
  match items with
  | [] => Normal []
  | e :: rest =>
      m ← item_message e;
      ms ← map_messages rest;
      Normal (m :: ms)
  end.

(** [v.map(e => e.message)] for an arbitrary value [v]: only an array has a
    callable [map]. *)
Definition errors_map (v : JsVal) : Completion JsVal :=
  match v with
  | JArr items => ms ← map_messages items; Normal (JArr ms)
  | JUndefined => Throw (TypeError "Cannot read properties of undefined (reading 'map')")
  | JNull => Throw (TypeError "Cannot read properties of null (reading 'map')")
  | _ => Throw (TypeError "err.errors.map is not a function")
  end.

(** ** Numbers out of values

    What [statusCode |= 0] in Node's [writeHead] and [Number(port)] in
    [server.listen] make of a value. *)

(** A number before it is cut to an integer: not-a-number, an infinity, or
    plus or minus [num / den] (with [0 <= num] and [0 < den]; minus zero is
    [Fin true 0 _]). *)
Inductive Num : Type :=
  | NaN
  | Inf (negative : bool)
  | Fin (negative : bool) (num den : Z).

(** The value of a digit in the given base (up to 16). *)
Definition digit_of (base : Z) (c : ascii) : option Z :=
  let n := Z.of_N (Ascii.N_of_ascii c) in
  let d := if (48 <=? n) && (n <=? 57) then n - 48
           else if (97 <=? n) && (n <=? 102) then n - 87
           else if (65 <=? n) && (n <=? 70) then n - 55
           else base in
  if d <? base then Some d else None.

(** The longest run of digits at the head of [s]: its value on top of
    [acc], its length on top of [len], and what follows it. *)
Fixpoint digits (base : Z) (s : string) (acc : Z) (len : nat) : Z * nat * string :=
  match s with
  | String c s' =>
      match digit_of base c with
      | Some d => digits base s' (acc * base + d) (S len)
      | None => (acc, len, s)
      end
  | EmptyString => (acc, len, s)
  end.

(** The white space and line terminators that take three bytes in UTF-8:
    U+1680, U+2000 to U+200A, U+2028, U+2029, U+202F, U+205F, U+3000 and
    U+FEFF. *)
Definition ws3 (a b c : N) : bool :=
  (((a =? 225) && (b =? 154) && (c =? 128))
   || ((a =? 226) && (b =? 128) && (((128 <=? c) && (c <=? 138)) || (c =? 168) || (c =? 169) || (c =? 175)))
   || ((a =? 226) && (b =? 129) && (c =? 159))
   || ((a =? 227) && (b =? 128) && (c =? 128))
   || ((a =? 239) && (b =? 187) && (c =? 191)))%N.

(** [s] without the white space at its head (StrWhiteSpace: tab, line
    feed, vertical tab, form feed, carriage return, space, U+00A0 and the
    three-byte ones). *)
Fixpoint skip_ws (s : string) : string :=
  match s with
  | String a s1 =>
      let n := Ascii.N_of_ascii a in
      if ((9 <=? n) && (n <=? 13) || (n =? 32))%N then skip_ws s1
      else match s1 with
           | String b s2 =>
               if ((n =? 194) && (Ascii.N_of_ascii b =? 160))%N then skip_ws s2
               else match s2 with
                    | String c s3 =>
                        if ws3 n (Ascii.N_of_ascii b) (Ascii.N_of_ascii c) then skip_ws s3 else s
                    | EmptyString => s
                    end
           | EmptyString => s
           end
  | EmptyString => s
  end.

(** An optional sign. *)
Definition sign (s : string) : bool * string :=
  match s with
  | String "+" r => (false, r)
  | String "-" r => (true, r)
  | _ => (false, s)
  end.

(** [m * 10^e] for a mantissa of decimal digits.  Beyond [10^400] every
    double is infinite, below [10^-400] every double is zero; the powers in
    between are computed exactly. *)
Definition scaled (negative : bool) (m e : Z) : Num :=
  if m =? 0 then Fin negative 0 1
  else if 400 <? e then Inf negative
  else if e + Z.log2 m + 1 <? -400 then Fin negative 0 1
  else if 0 <=? e then Fin negative (m * 10 ^ e) 1
  else Fin negative m (10 ^ (- e)).

(** StrUnsignedDecimalLiteral: digits, a fraction, an exponent. *)
Definition decimal (negative : bool) (s : string) : option (Num * string) :=
  let '(i, ni, r1) := digits 10 s 0 0 in
  let '(m, nf, r2) :=
    match r1 with
    | String "." r => digits 10 r i 0
    | _ => (i, 0%nat, r1)
    end in
  if (ni + nf =? 0)%nat then None
  else
    let plain := Some (scaled negative m (- Z.of_nat nf), r2) in
    match r2 with
    | String c r =>
        if Ascii.eqb c "e" || Ascii.eqb c "E" then
          let '(eneg, r') := sign r in
          let '(e, ne, r3) := digits 10 r' 0 0 in
          if (ne =? 0)%nat then plain
          else Some (scaled negative m ((if eneg then - e else e) - Z.of_nat nf), r3)
        else plain
    | EmptyString => plain
    end.

(** A literal with a radix prefix. *)
Definition radix (base : Z) (s : string) : option (Num * string) :=
  let '(v, n, r) := digits base s 0 0 in
  if (n =? 0)%nat then None else Some (Fin false v 1, r).

(** The rest of [s] after the prefix [pre]. *)
Fixpoint after (pre s : string) : option string :=
  match pre, s with
  | EmptyString, _ => Some s
  | String a pre', String b s' => if Ascii.eqb a b then after pre' s' else None
  | String _ _, EmptyString => None
  end.

(** StrDecimalLiteral: a sign, then [Infinity] or decimal digits. *)
Definition signed_literal (s : string) : option (Num * string) :=
  let '(negative, r) := sign s in
  match after "Infinity" r with
  | Some r' => Some (Inf negative, r')
  | None => decimal negative r
  end.

(** StrNumericLiteral: a hexadecimal, octal or binary literal takes no
    sign. *)
Definition literal (s : string) : option (Num * string) :=
  match s with
  | String "0" (String c r) =>
      if Ascii.eqb c "x" || Ascii.eqb c "X" then radix 16 r
      else if Ascii.eqb c "o" || Ascii.eqb c "O" then radix 8 r
      else if Ascii.eqb c "b" || Ascii.eqb c "B" then radix 2 r
      else signed_literal s
  | _ => signed_literal s
  end.

(** The mathematical value of a string as StringToNumber reads it, before
    it is rounded to a double. *)
Definition string_value (s : string) : Num :=
  let s1 := skip_ws s in
  if String.eqb s1 "" then Fin false 0 1
  else match literal s1 with
       | Some (v, r) => if String.eqb (skip_ws r) "" then v else NaN
       | None => NaN
       end.

(** Rounding to the nearest double, ties to even: 53 bits of mantissa,
    exponents down to the subnormal range, infinity from [2^1024] on. *)
Definition to_double (v : Num) : Num :=
  match v with
  | Fin negative n d =>
      if n =? 0 then v
      else
        let e0 := Z.log2 n - Z.log2 d in
        let reaches := if 0 <=? e0 then d * 2 ^ e0 <=? n else d <=? n * 2 ^ (- e0) in
        let e := if reaches then e0 else e0 - 1 in
        if 1024 <=? e then Inf negative
        else
          let s := Z.max (e - 52) (-1074) in
          let nn := if 0 <=? s then n else n * 2 ^ (- s) in
          let dd := if 0 <=? s then d * 2 ^ s else d in
          let q := nn / dd in
          let r := nn mod dd in
          let m := if 2 * r <? dd then q
                   else if dd <? 2 * r then q + 1
                   else if Z.even q then q else q + 1 in
          if (m =? 2 ^ 53) && (e =? 1023) then Inf negative
          else if 0 <=? s then Fin negative (m * 2 ^ s) 1
          else Fin negative m (2 ^ (- s))
  | _ => v
  end.

(** An integer modulo [2^32], taken in [-2^31, 2^31). *)
Definition wrap32 (z : Z) : Z := (z + 2 ^ 31) mod 2 ^ 32 - 2 ^ 31.

(** ToInt32: not-a-number and the infinities give 0, any other number is
    cut towards zero and wrapped. *)
Definition int32_of (v : Num) : Z :=
  match v with
  | Fin negative n d => wrap32 (if negative then - (n / d) else n / d)
  | _ => 0
  end.

(** [String(v)] does not throw.  A property that the record of an object
    does not list is inherited from [Object.prototype]; one that it lists is
    not a function, so an object that lists [toString] cannot be converted
    (its inherited [valueOf] returns the object itself), and neither can an
    array that holds one. *)
Fixpoint stringifies (v : JsVal) : bool :=
  match v with
  | JArr items => forallb stringifies items
  | JObj props =>
      match assoc "toString" props with
      | Some _ => false
      | None => true
      end
  | _ => true
  end.

(** [Number(String(v))] for an array [v] or an element of one ([join] prints
    [undefined] and [null] as the empty string, an object as
    ["[object Object]"], and puts commas between two elements). *)
Fixpoint text_number (v : JsVal) : Num :=
  match v with
  | JUndefined | JNull => Fin false 0 1
  | JBool _ => NaN
  | JNum n => Fin (n <? 0) (Z.abs n) 1
  | JStr s => to_double (string_value s)
  | JArr [] => Fin false 0 1
  | JArr [x] => text_number x
  | JArr _ => NaN
  | JObj _ => NaN
  end.

(** ToNumber *)
Definition to_number (v : JsVal) : Completion Num :=
  match v with
  | JUndefined => Normal NaN
  | JNull => Normal (Fin false 0 1)
  | JBool b => Normal (Fin false (if b then 1 else 0) 1)
  | JNum n => Normal (Fin (n <? 0) (Z.abs n) 1)
  | JStr s => Normal (to_double (string_value s))
  | JArr _ | JObj _ =>
      if stringifies v then Normal (text_number v)
      else Throw (TypeError "Cannot convert object to primitive value")
  end.

(** [v | 0] *)
Definition to_int32 (v : JsVal) : Completion Z :=
  n ← to_number v; Normal (int32_of n).

(** ** Requests, responses and the process state *)

(** What the pipeline reads from a request.  [path] is the pathname the
    router matches on; [origin], [host] and [forwarded_proto] are the headers
    [origin], [host] and [x-forwarded-proto]; [now] is the clock reading (in
    ms) when the request is served. *)
Record Request : Type := {
  method : string;
  path : string;
  url : string;
  originalUrl : string;
  ip : string;
  origin : option string;
  host : option string;
  forwarded_proto : option string;
  now : Z
}.

(** A response: the status code of the head that goes out, and the body
    handed to [res.json] or [res.end] for it (Node sends the head alone for a
    HEAD request and for a status that has no content). *)
Record Sent : Type := { sent_status : JsVal; sent_body : JsVal }.

(** The [res] object: the status set so far, the headers set so far and
    the bodies written (newest first), each with the status code of the head
    it went out under. *)
Record Res : Type := {
  statusCode : JsVal;
  headers : list (string * string);
  sent : list Sent
}.

(** One rate-limit counter: hits in the current window and the time at which
    the window ends. *)
Record Counter : Type := { count : Z; resetTime : Z }.

(** State a request runs against: its [res], the limiter's counter table
    (shared by all requests) and the lines written with [console.*]. *)
Record World : Type := {
  res : Res;
  hits : gmap string Counter;
  console : list (list JsVal)
}.

(** An update of [res] alone. *)
Definition with_res (f : Res -> Res) (w : World) : World :=
  {| res := f (res w); hits := hits w; console := console w |}.

(** Code that runs against the world and may throw; the world keeps the
    effects performed before the throw. *)
Definition Eff (A : Type) : Type := World -> Completion A * World.

(** Returning a value leaves the world alone. *)
#[global] Instance eff_ret : MRet Eff := fun A a w => (Normal a, w).

(** Sequencing threads the world; a throw skips what follows. *)
#[global] Instance eff_bind : MBind Eff := fun A B k m w =>
  match m w with
  | (Normal a, w') => k a w'
  | (Throw e, w') => (Throw e, w')
  end.

(** A pure evaluation inside effectful code. *)
Definition lift {A} (c : Completion A) : Eff A := fun w => (c, w).

(** [console.error(...args)] / [console.log] / [console.warn] *)
Definition console_write (args : list JsVal) : Eff unit := fun w =>
  (Normal (), {| res := res w; hits := hits w; console := args :: console w |}).

(** [res.status(code)] *)
Definition res_status (code : JsVal) : Eff unit := fun w =>
  (Normal (), with_res (fun r => {| statusCode := code; headers := headers r; sent := sent r |}) w).

(** [res.json(body)]: the body goes out under the status set so far.
    Writing the head, Node takes [statusCode | 0] and throws, with nothing
    written, unless that lies in 100..999.  (Node also refuses to write a
    second head on the same [res]; the record does not tell that case apart,
    the statements about a reply that need it say that nothing has been sent
    yet.) *)
Definition res_json (body : JsVal) : Eff unit := fun w =>
  match to_int32 (statusCode (res w)) with
  | Normal code =>
      if (100 <=? code) && (code <=? 999)
      then (Normal (),
            with_res (fun r => {| statusCode := statusCode r; headers := headers r;
                                  sent := {| sent_status := JNum code; sent_body := body |}
                                            :: sent r |}) w)
      else (Throw (InvalidStatusCode (statusCode (res w))), w)
  | Throw e => (Throw e, w)
  end.

(** [res.end()]: the response goes out without a body. *)
Definition res_end : Eff unit := res_json JUndefined.

(** ** Error objects *)

(** The five properties of [err] that the error handler reads. *)
Record ErrObj : Type := {
  err_name : JsVal;
  err_message : JsVal;
  err_stack : JsVal;
  err_status : JsVal;
  err_errors : JsVal
}.

(** [new Error(msg)]: the name comes from [Error.prototype]; the first line
    of the stack is the name and message (the frames after it are left out). *)
Definition new_Error (msg : string) : ErrObj :=
  {| err_name := JStr "Error"; err_message := JStr msg;
     err_stack := JStr ("Error: " ++ msg);
     err_status := JUndefined; err_errors := JUndefined |}.

(** The refused status as Node's message shows it (a number in decimal, a
    string as it is; the inspection of an array or object is left out). *)
Definition shown (status : JsVal) : string :=
  match status with
  | JNum n => pretty n
  | JStr s => s
  | JBool true => "true"
  | JBool false => "false"
  | JNull => "null"
  | JUndefined => "undefined"
  | JArr _ | JObj _ => ""
  end.

(** The object a thrown exception is. *)
Definition exn_obj (e : Exn) : ErrObj :=
  match e with
  | TypeError what =>
      {| err_name := JStr "TypeError"; err_message := JStr what;
         err_stack := JStr ("TypeError: " ++ what);
         err_status := JUndefined; err_errors := JUndefined |}
  | InvalidStatusCode status =>
      {| err_name := JStr "RangeError";
         err_message := JStr ("Invalid status code: " ++ shown status);
         err_stack := JStr ("RangeError [ERR_HTTP_INVALID_STATUS_CODE]: Invalid status code: "
                            ++ shown status);
         err_status := JUndefined; err_errors := JUndefined |}
  end.

(** ** The error-handling middleware (server.js 123-154) *)

(** The four messages of the handler: invalid data, duplicate data, invalid
    token, internal server error. *)
Definition msg_invalid_data : string := "ข้อมูลไม่ถูกต้อง".
Definition msg_duplicate_data : string := "ข้อมูลซ้ำในระบบ".
Definition msg_invalid_token : string := "Token ไม่ถูกต้อง".
Definition msg_server_error : string := "เกิดข้อผิดพลาดภายในเซิร์ฟเวอร์".

(** The four branches, identical in the three files.  In
    [res.status(400).json({..., errors: err.errors.map(...)})] the call
    [res.status(400)] is evaluated before the argument of [json]. *)
Definition normalize (err : ErrObj) : Eff unit :=
  if is_str (err_name err) "SequelizeValidationError" then
    res_status (JNum 400) ;;
    errs ← lift (errors_map (err_errors err));
    res_json (JObj [("success", JBool false);
                    ("message", JStr msg_invalid_data);
                    ("errors", errs)])
  else if is_str (err_name err) "SequelizeUniqueConstraintError" then
    res_status (JNum 400) ;;
    errs ← lift (errors_map (err_errors err));
    res_json (JObj [("success", JBool false);
                    ("message", JStr msg_duplicate_data);
                    ("errors", errs)])
  else if is_str (err_name err) "JsonWebTokenError" then
    res_status (JNum 401) ;;
    res_json (JObj [("success", JBool false);
                    ("message", JStr msg_invalid_token)])
  else
    res_status (js_or (err_status err) (JNum 500)) ;;
    res_json (JObj [("success", JBool false);
                    ("message", js_or (err_message err) (JStr msg_server_error))]).

(** server.js and the second variant log the message and the stack. *)
Definition errorHandler (err : ErrObj) (req : Request) : Eff unit :=
  console_write [JStr "Error:"; err_message err] ;;
  console_write [JStr "Stack:"; err_stack err] ;;
  normalize err.

(** The first variant logs one record with the route, method and address. *)
Definition errorHandler_detailed (err : ErrObj) (req : Request) : Eff unit :=
  console_write [JStr "🚨 ERROR:";
                 JObj [("message", err_message err);
                       ("stack", err_stack err);
                       ("route", JStr (originalUrl req));
                       ("method", JStr (method req));
                       ("ip", JStr (ip req))]] ;;
  normalize err.

(** ** The 404 handler (server.js 157-162) *)

(** "The requested API was not found". *)
Definition msg_not_found : string := "ไม่พบ API ที่ร้องขอ".

(** The last [app.use] of server.js. *)
Definition notFound (req : Request) : Eff unit :=
  res_status (JNum 404) ;;
  res_json (JObj [("success", JBool false);
                  ("message", JStr msg_not_found)]).

(** The second variant appends the requested URL to the message. *)
Definition notFound_echo (req : Request) : Eff unit :=
  res_status (JNum 404) ;;
  res_json (JObj [("success", JBool false);
                  ("message", JStr (msg_not_found ++ ": " ++ originalUrl req))]).

(** ** Express: the middleware stack and how a request runs through it *)

(** What a middleware tells the router: [next()], [next(err)], or nothing
    more because it ended the response. *)
Inductive Signal : Type :=
  | Next
  | NextErr (e : ErrObj)
  | Done.

(** [(req, res, next) => ...] and [(err, req, res, next) => ...] *)
Definition Middleware : Type := Request -> World -> Signal * World.
Definition ErrorMiddleware : Type := ErrObj -> Request -> World -> Signal * World.

(** A function of three parameters is an ordinary middleware, one of four an
    error-handling middleware. *)
Inductive Handle : Type :=
  | Mw (f : Middleware)
  | ErrMw (f : ErrorMiddleware).

(** [app.use(mount, handle)]; [app.use(handle)] mounts at ["/"]. *)
Record Layer : Type := { mount : string; handle : Handle }.

(** The three forms of [app.use] the files contain. *)
Definition use (f : Middleware) : Layer := {| mount := "/"; handle := Mw f |}.
Definition use_at (m : string) (f : Middleware) : Layer := {| mount := m; handle := Mw f |}.
Definition use_err (f : ErrorMiddleware) : Layer := {| mount := "/"; handle := ErrMw f |}.

(** A handler of this file that ends the response and never calls [next]:
    it signals [Done]; what it throws, the router passes on as [next(err)]. *)
Definition terminal (h : Eff unit) (w : World) : Signal * World :=
  match h w with
  | (Normal _, w') => (Done, w')
  | (Throw e, w') => (NextErr (exn_obj e), w')
  end.

(** *** Mount paths

    How Express (the framework, not part of the repository) decides that a
    layer mounted with [app.use(mount, fn)] applies to a request: the base of
    the requested path must match the mount path.  Routing ignores letter case
    and a trailing slash unless 'case sensitive routing' or 'strict routing'
    is enabled; server.js sets neither (its only setting is 'trust proxy').
    The router compiles ['/api/'] to the pattern [^\/api\/?(?=\/|$)] with
    the [i] flag. *)

(** Case folding of the [i] flag on an ASCII letter. *)
Definition lower (c : ascii) : ascii :=
  let n := Ascii.N_of_ascii c in
  if ((65 <=? n) && (n <=? 90))%N then Ascii.ascii_of_N (n + 32) else c.

(** The rest of [p] after a prefix equal to [m] up to letter case. *)
Fixpoint strip_prefix_ci (m p : string) : option string :=
  match m, p with
  | EmptyString, _ => Some p
  | String a m', String b p' =>
      if Ascii.eqb (lower a) (lower b) then strip_prefix_ci m' p' else None
  | String _ _, EmptyString => None
  end.

(** The mount path without its trailing slash. *)
Fixpoint loosen (m : string) : string :=
  match m with
  | EmptyString => EmptyString
  | String c EmptyString => if Ascii.eqb c "/"%char then EmptyString else m
  | String c m' => String c (loosen m')
  end.

(** The mount path matches the base of the path: what follows the matched
    prefix is nothing or starts with ["/"].  The mount ["/"] matches every
    path. *)
Definition mount_matches (m p : string) : bool :=
  if String.eqb m "/" then true
  else match strip_prefix_ci (loosen m) p with
       | Some EmptyString => true
       | Some (String c _) => Ascii.eqb c "/"%char
       | None => false
       end.

(** *** Dispatch *)

(** How the stack leaves a request: some layer ended the response, or the
    stack ran out (with or without a pending error) and Express's own final
    handler takes over. *)
Inductive Final : Type :=
  | Responded
  | Unhandled (pending : option ErrObj).

(** Modelled from the spec: the router of Express, which server.js drives
    through [app.use].  "Within one request, stages execute strictly in the
    declared mount order"; "any stage may short-circuit with an error, which
    flows to Error Normalizer; unmatched routes fall to Not-Found Responder".
    Without a pending error the error-handling layers are skipped; with one,
    the ordinary layers are. *)
Fixpoint dispatch (stack : list Layer) (pending : option ErrObj)
    (req : Request) (w : World) : Final * World :=
  match stack with
  | [] => (Unhandled pending, w)
  | l :: rest =>
      let continue (sw : Signal * World) :=
        match sw with
        | (Next, w') => dispatch rest None req w'
        | (NextErr e, w') => dispatch rest (Some e) req w'
        | (Done, w') => (Responded, w')
        end in
      if mount_matches (mount l) (path req) then
        match handle l, pending with
        | Mw f, None => continue (f req w)
        | ErrMw f, Some e => continue (f e req w)
        | _, _ => dispatch rest pending req w
        end
      else dispatch rest pending req w
  end.

(** ** The rate limiter (server.js 60-68) *)

(** The options object passed to [rateLimit]. *)
Record LimitOptions : Type := {
  windowMs : Z;
  max : Z;
  skipFailedRequests : bool;
  message : JsVal
}.

(** Modelled from the spec: the counter logic of the express-rate-limit
    package, which server.js only configures.  "On each request: if no counter
    exists or the window has elapsed, create/reset it to 1; otherwise
    increment." *)
Definition hit (o : LimitOptions) (key : string) (t : Z)
    (table : gmap string Counter) : Counter :=
  match table !! key with
  | Some c =>
      if resetTime c <=? t
      then {| count := 1; resetTime := t + windowMs o |}
      else {| count := count c + 1; resetTime := resetTime c |}
  | None => {| count := 1; resetTime := t + windowMs o |}
  end.

(** Modelled from the spec: "If the incremented count exceeds a configured
    maximum, reject with a 429-equivalent response containing a structured
    message, and do not forward to Router Dispatch."  The key is the client
    address [req.ip].  ([skipFailedRequests] gives a hit back when the
    response has finished with a failure status, after the stack has run; that
    is outside [dispatch].) *)
Definition rateLimit (o : LimitOptions) : Middleware := fun req w =>
  let c := hit o (ip req) (now req) (hits w) in
  let w' := {| res := res w; hits := <[ip req := c]> (hits w); console := console w |} in
  if max o <? count c
  then terminal (res_status (JNum 429) ;; res_json (message o)) w'
  else (Next, w').

(** ** The CORS stage (server.js 71-84) *)

(** [!origin] for [req.headers.origin]: the header is a string or absent. *)
Definition not_origin (origin : option string) : bool :=
  match origin with
  | None => true
  | Some s => String.eqb s ""
  end.

(** [allowed.includes(origin)] *)
Definition includes (allowed : list string) (origin : option string) : bool :=
  match origin with
  | None => false
  | Some s => existsb (String.eqb s) allowed
  end.

(** The message of the policy error. *)
Definition msg_cors_blocked : string := "CORS Policy Blocks This Request".

(** The [origin] function of server.js; its result is the pair of arguments
    it hands to [callback]. *)
Definition originCallback (allowed : list string) (origin : option string)
    : Eff (option ErrObj * JsVal) :=
  console_write [JStr "🔍 Request Origin:"; str_val origin] ;;
  if not_origin origin || includes allowed origin
  then mret (None, JBool true)
  else mret (Some (new_Error msg_cors_blocked), JUndefined).

(** The first variant logs only when it blocks. *)
Definition originCallback_quiet (allowed : list string) (origin : option string)
    : Eff (option ErrObj * JsVal) :=
  if not_origin origin || includes allowed origin
  then mret (None, JBool true)
  else
    console_write [JStr "🚫 CORS Blocked:"; str_val origin] ;;
    mret (Some (new_Error msg_cors_blocked), JUndefined).

(** The options object passed to [cors]. *)
Record CorsOptions : Type := {
  cors_origin : option string -> Eff (option ErrObj * JsVal);
  cors_methods : list string;
  cors_allowedHeaders : list string;
  cors_exposedHeaders : list string;
  cors_credentials : bool
}.

(** [res.setHeader] for each header of the list. *)
Definition set_headers (hs : list (string * string)) (w : World) : World :=
  with_res (fun r => {| statusCode := statusCode r; headers := hs ++ headers r; sent := sent r |}) w.

(** Headers of an allowed request: the request's origin is reflected when
    there is one, credentials and exposed headers follow the options. *)
Definition cors_headers (o : CorsOptions) (origin : option string) : list (string * string) :=
  (if not_origin origin then [] else [("Access-Control-Allow-Origin", default "" origin)])
  ++ [("Vary", "Origin")]
  ++ (if cors_credentials o then [("Access-Control-Allow-Credentials", "true")] else [])
  ++ (match cors_exposedHeaders o with
      | [] => []
      | hs => [("Access-Control-Expose-Headers", String.concat "," hs)]
      end).

(** The additional headers of the answer to a preflight. *)
Definition preflight_headers (o : CorsOptions) : list (string * string) :=
  [("Access-Control-Allow-Methods", String.concat "," (cors_methods o));
   ("Access-Control-Allow-Headers", String.concat "," (cors_allowedHeaders o))].

(** Modelled from the spec: the wrapper of the cors package around the origin
    function.  "Allowed requests receive response headers granting
    credentialed cross-origin access and exposing a designated response
    header"; "denial surfaces as an error object consumed by the Error
    Normalizer, not as a direct HTTP response".  A preflight ([OPTIONS]) is
    answered here with 204. *)
Definition cors (o : CorsOptions) : Middleware := fun req w =>
  match cors_origin o (origin req) w with
  | (Throw e, w') => (NextErr (exn_obj e), w')
  | (Normal (Some e, _), w') => (NextErr e, w')
  | (Normal (None, allow), w') =>
      if truthy allow then
        let w'' := set_headers (cors_headers o (origin req)) w' in
        if String.eqb (method req) "OPTIONS"
        then terminal (res_status (JNum 204) ;; res_end)
                      (set_headers (preflight_headers o) w'')
        else (Next, w'')
      else (Next, w')
  end.

(** ** Environment and external collaborators *)

(** [process.env]: a map from names to strings. *)
Definition getenv (env : gmap string string) (k : string) : option string := env !! k.

(** [s.split(sep)] for a one-character separator. *)
Fixpoint split (sep : ascii) (s : string) : list string :=
  match s with
  | EmptyString => [EmptyString]
  | String c s' =>
      if Ascii.eqb c sep then EmptyString :: split sep s'
      else match split sep s' with
           | h :: t => String c h :: t
           | [] => [String c EmptyString]
           end
  end.

(** A middleware supplied by a package or a router module of the
    application.  It sees the request and [res]; the limiter's table is
    private to the limiter. *)
Definition External : Type := Request -> Res -> Signal * Res.

(** An external middleware as a layer function: only [res] changes. *)
Definition ext (f : External) : Middleware := fun req w =>
  let '(s, r) := f req (res w) in (s, with_res (fun _ => r) w).

(** Express's [res.redirect(target)]: what it leaves in [res] (the status,
    the encoded Location, the negotiated body), and the error it throws if it
    does. *)
Definition Redirect : Type := string -> Request -> Res -> option ErrObj * Res.

(** The packages and route modules server.js requires, and the one method
    of Express's [res] that is taken as given. *)
Record Externals : Type := {
  redirect : Redirect;
  cookieParser : JsVal -> External;
  helmet : JsVal -> External;
  xss : External;
  hpp : External;
  express_json : string -> External;
  express_urlencoded : string -> External;
  express_static : string -> External;
  authRoutes : External;
  userRoutes : External;
  facultyRoutes : External;
  fileRoutes : External;
  categoryRoutes : External;
  activityRoutes : External;
  profileRoutes : External;
  planactivityRoutes : External;
  notificationRoutes : External;
  contactRoutes : External
}.

(** The two origins listed in the files. *)
Definition default_origins : list string :=
  ["http://localhost:5173"; "https://project-100-front.onrender.com"].

(** The literal the cookie secret falls back to. *)
Definition fallback_secret : string := "your-secret-key-123".

(** [const COOKIE_SECRET = process.env.COOKIE_SECRET || 'your-secret-key-123'] *)
Definition COOKIE_SECRET (env : gmap string string) : JsVal :=
  js_or (str_val (getenv env "COOKIE_SECRET")) (JStr fallback_secret).

(** The options server.js and the second variant pass to [helmet]. *)
Definition helmet_options : JsVal :=
  JObj [("contentSecurityPolicy",
         JObj [("directives",
                JObj [("defaultSrc", JArr [JStr "'self'"]);
                      ("scriptSrc", JArr [JStr "'self'"; JStr "'unsafe-inline'"]);
                      ("styleSrc", JArr [JStr "'self'"; JStr "'unsafe-inline'"]);
                      ("imgSrc", JArr [JStr "'self'"; JStr "data:"; JStr "https:"])])]);
        ("crossOriginEmbedderPolicy", JBool false);
        ("crossOriginResourcePolicy", JBool false)].

(** The route mounts, in the order of server.js 101-110 (the same in the
    three files). *)
Definition routes (x : Externals) : list Layer :=
  [ use_at "/api/auth" (ext (authRoutes x));
    use_at "/api/user" (ext (userRoutes x));
    use_at "/api/faculty" (ext (facultyRoutes x));
    use_at "/api/" (ext (fileRoutes x));
    use_at "/api/category" (ext (categoryRoutes x));
    use_at "/api" (ext (activityRoutes x));
    use_at "/api/profile" (ext (profileRoutes x));
    use_at "/api/" (ext (planactivityRoutes x));
    use_at "/api/notifications" (ext (notificationRoutes x));
    use_at "/api/" (ext (contactRoutes x)) ].

(** The two static folders (server.js 97-98). *)
Definition statics (x : Externals) : list Layer :=
  [ use_at "/uploads" (ext (express_static x "uploads"));
    use_at "/uploadsfile" (ext (express_static x "uploadsfile")) ].

(** What starting the process leads to. *)
Inductive Boot : Type :=
  | Exit (code : Z)
  | Listening (port : JsVal) (cookie_secret : JsVal).

(** ** server.js *)

Module Server.

Definition limiter_options : LimitOptions :=
  {| windowMs := 100 * 60 * 1000;
     max := 1200;
     skipFailedRequests := false;
     message := JObj [("success", JBool false);
                      ("message", JStr "คำขอมากเกินไป กรุณาลองใหม่ในภายหลัง")] |}.

Definition limiter : Middleware := rateLimit limiter_options.

Definition cors_options : CorsOptions :=
  {| cors_origin := originCallback default_origins;
     cors_methods := ["GET"; "POST"; "PUT"; "PATCH"; "DELETE"];
     cors_allowedHeaders := ["Content-Type"; "Authorization"];
     cors_exposedHeaders := ["Authorization"];
     cors_credentials := true |}.

(** The [app.use] calls of the file, top to bottom: what is mounted before
    the limiter, the limiter, and what is mounted after it. *)
Definition security (x : Externals) (env : gmap string string) : list Layer :=
  [ use (ext (cookieParser x (COOKIE_SECRET env)));
    use (ext (helmet x helmet_options));
    use (ext (xss x));
    use (ext (hpp x));
    use (ext (cookieParser x JUndefined)) ].

Definition parsers (x : Externals) : list Layer :=
  [ use (ext (express_json x "100kb"));
    use (ext (express_urlencoded x "100kb")) ].

Definition fallbacks : list Layer :=
  [ use_err (fun err req => terminal (errorHandler err req));
    use (fun req => terminal (notFound req)) ].

Definition downstream (x : Externals) : list Layer :=
  use (cors cors_options) :: parsers x ++ statics x ++ routes x ++ fallbacks.

Definition app (x : Externals) (env : gmap string string) : list Layer :=
  security x env ++ use_at "/api/" limiter :: downstream x.

(** [startServer]: [database_ok] says that the body of the [try] block
    ([authenticate], [sync], the upload directories) runs without throwing;
    otherwise the process exits with 1.  The port is
    [process.env.PORT || 5001]. *)
Definition startServer (env : gmap string string) (database_ok : bool) : Boot :=
  if database_ok
  then Listening (js_or (str_val (getenv env "PORT")) (JNum 5001)) (COOKIE_SECRET env)
  else Exit 1.

End Server.

(** ** First variant: HTTPS redirect, 1000 requests per 15 minutes *)

Module Https.

(** A header spliced into a template literal. *)
Definition splice (v : option string) : string := default "undefined" v.

(** The redirect middleware (lines 50-55 of the variant):
    [return res.redirect(...)] does not call [next]; what [res.redirect]
    throws, the router passes on as [next(err)]. *)
Definition forceHttps (x : Externals) (env : gmap string string) : Middleware := fun req w =>
  if negb (bool_decide (forwarded_proto req = Some "https"))
     && bool_decide (getenv env "NODE_ENV" = Some "production")
  then
    let '(thrown, r) := redirect x ("https://" ++ splice (host req) ++ url req) req (res w) in
    (match thrown with
     | None => Done
     | Some e => NextErr e
     end, with_res (fun _ => r) w)
  else (Next, w).

Definition limiter_options : LimitOptions :=
  {| windowMs := 15 * 60 * 1000;
     max := 1000;
     skipFailedRequests := true;
     message := JObj [("success", JBool false);
                      ("message", JStr "คุณส่งคำขอมากเกินไป กรุณาลองใหม่ในภายหลัง")] |}.

Definition limiter : Middleware := rateLimit limiter_options.

Definition allowedOrigins : list string := default_origins.

Definition cors_options : CorsOptions :=
  {| cors_origin := originCallback_quiet allowedOrigins;
     cors_methods := ["GET"; "POST"; "PUT"; "PATCH"; "DELETE"];
     cors_allowedHeaders := ["Content-Type"; "Authorization"];
     cors_exposedHeaders := ["Authorization"];
     cors_credentials := true |}.

Definition security (x : Externals) (env : gmap string string) : list Layer :=
  [ use (ext (cookieParser x (COOKIE_SECRET env)));
    use (ext (helmet x JUndefined));
    use (ext (xss x));
    use (ext (hpp x));
    use (ext (cookieParser x JUndefined));
    use (forceHttps x env) ].

Definition parsers (x : Externals) : list Layer :=
  [ use (ext (express_json x "1mb"));
    use (ext (express_urlencoded x "1mb")) ].

Definition fallbacks : list Layer :=
  [ use_err (fun err req => terminal (errorHandler_detailed err req));
    use (fun req => terminal (notFound req)) ].

Definition downstream (x : Externals) : list Layer :=
  use (cors cors_options) :: parsers x ++ statics x ++ routes x ++ fallbacks.

Definition app (x : Externals) (env : gmap string string) : list Layer :=
  security x env ++ use_at "/api/" limiter :: downstream x.

Definition startServer (env : gmap string string) (database_ok : bool) : Boot :=
  if database_ok
  then Listening (js_or (str_val (getenv env "PORT")) (JNum 3000)) (COOKIE_SECRET env)
  else Exit 1.

End Https.

(** ** Second variant: origins from the environment, 200 requests per 15 minutes *)

Module Env.

Definition limiter_options : LimitOptions :=
  {| windowMs := 15 * 60 * 1000;
     max := 200;
     skipFailedRequests := false;
     message := JObj [("success", JBool false);
                      ("message", JStr "คุณได้ส่งคำขอมากเกินไป กรุณาลองใหม่อีกครั้งในภายหลัง")] |}.

Definition limiter : Middleware := rateLimit limiter_options.

(** [process.env.ALLOWED_ORIGINS ? process.env.ALLOWED_ORIGINS.split(',') : [...]] *)
Definition allowedOrigins (env : gmap string string) : list string :=
  match getenv env "ALLOWED_ORIGINS" with
  | Some s => if String.eqb s "" then default_origins else split "," s
  | None => default_origins
  end.

Definition cors_options (env : gmap string string) : CorsOptions :=
  {| cors_origin := originCallback (allowedOrigins env);
     cors_methods := ["GET"; "POST"; "PUT"; "PATCH"; "DELETE"];
     cors_allowedHeaders := ["Content-Type"; "Authorization"];
     cors_exposedHeaders := ["Authorization"];
     cors_credentials := true |}.

Definition security (x : Externals) (env : gmap string string) : list Layer :=
  [ use (ext (cookieParser x (COOKIE_SECRET env)));
    use (ext (helmet x helmet_options));
    use (ext (xss x));
    use (ext (hpp x));
    use (ext (cookieParser x JUndefined)) ].

Definition parsers (x : Externals) : list Layer :=
  [ use (ext (express_json x "100kb"));
    use (ext (express_urlencoded x "100kb")) ].

Definition fallbacks : list Layer :=
  [ use_err (fun err req => terminal (errorHandler err req));
    use (fun req => terminal (notFound_echo req)) ].

Definition downstream (x : Externals) (env : gmap string string) : list Layer :=
  use (cors (cors_options env)) :: parsers x ++ statics x ++ routes x ++ fallbacks.

Definition app (x : Externals) (env : gmap string string) : list Layer :=
  security x env ++ use_at "/api/" limiter :: downstream x env.

(** The variables whose absence stops the process (lines 118-123). *)
Definition required_env : list string :=
  ["DB_HOST"; "DB_USER"; "DB_PASSWORD"; "DB_NAME"; "PORT"].

Definition env_missing (env : gmap string string) (k : string) : bool :=
  negb (truthy (str_val (getenv env k))).

Definition startServer (env : gmap string string) (database_ok : bool) : Boot :=
  if existsb (env_missing env) required_env then Exit 1
  else if database_ok
  then Listening (js_or (str_val (getenv env "PORT")) (JNum 5001)) (COOKIE_SECRET env)
  else Exit 1.

End Env.

(** ** Observations and inputs used in the statements *)

(** The handler [h], run against [w], returns normally having written
    exactly one response, [s]. *)
Definition responds (h : Eff unit) (w : World) (s : Sent) : Prop :=
  exists w', h w = (Normal (), w') /\ sent (res w') = s :: sent (res w).

(** The error envelope without [errors]. *)
Definition envelope (msg : JsVal) : JsVal :=
  JObj [("success", JBool false); ("message", msg)].

(** The envelope with the [errors] key. *)
Definition envelope_errors (msg : JsVal) (errs : JsVal) : JsVal :=
  JObj [("success", JBool false); ("message", msg); ("errors", errs)].

(** A key of a JSON body. *)
Definition field (k : string) (body : JsVal) : option JsVal :=
  match body with
  | JObj ps => assoc k ps
  | _ => None
  end.

(** The error's name selects one of the data-layer branches. *)
Definition data_layer_name (err : ErrObj) : bool :=
  is_str (err_name err) "SequelizeValidationError"
  || is_str (err_name err) "SequelizeUniqueConstraintError".

(** [undefined] or [null]: the values a property read throws on. *)
Definition is_nullish (v : JsVal) : bool :=
  match v with
  | JUndefined | JNull => true
  | _ => false
  end.

(** [err.errors] is an array none of whose elements is [undefined] or [null]. *)
Definition errors_listed (err : ErrObj) : bool :=
  match err_errors err with
  | JArr items => forallb (fun e => negb (is_nullish e)) items
  | _ => false
  end.

(** The message of an element of [err.errors] that is not [undefined] or
    [null]: its [message] property if it is an object that has one. *)
Definition message_of (e : JsVal) : JsVal :=
  match e with
  | JObj ps => default JUndefined (assoc "message" ps)
  | _ => JUndefined
  end.

(** The code under which the head goes out for a status, if Node accepts
    it. *)
Definition wire_status (status : JsVal) : option Z :=
  match to_int32 status with
  | Normal code => if (100 <=? code) && (code <=? 999) then Some code else None
  | Throw _ => None
  end.

(** The error objects the normalizer has an answer for: with a data-layer
    name the [errors] have to be a list of items, in the last branch the
    status has to be one Node accepts. *)
Definition answerable (err : ErrObj) : bool :=
  if data_layer_name err then errors_listed err
  else if is_str (err_name err) "JsonWebTokenError" then true
  else bool_decide (is_Some (wire_status (js_or (err_status err) (JNum 500)))).

(** The last branch read literally, "the error's declared status if present
    else 500, the error's declared message if present else the generic
    message": a property is present unless it is [undefined]. *)
Definition declared (v : JsVal) : bool :=
  match v with
  | JUndefined => false
  | _ => true
  end.

(** The reply of the last branch under that reading. *)
Definition generic_if_present (err : ErrObj) : Sent :=
  {| sent_status := if declared (err_status err) then err_status err else JNum 500;
     sent_body := envelope (if declared (err_message err) then err_message err
                            else JStr msg_server_error) |}.

(** The classification as C1 words it: every error with a data-layer name
    is answered with 400, the message and some list of errors; a token error
    with 401; every other error with the declared status and message where
    present. *)
Definition classification_stated (err : ErrObj) : Prop :=
  forall (req : Request) (w : World),
    (err_name err = JStr "SequelizeValidationError" ->
       exists errs, responds (errorHandler err req) w
         {| sent_status := JNum 400;
            sent_body := envelope_errors (JStr msg_invalid_data) (JArr errs) |}) /\
    (err_name err = JStr "SequelizeUniqueConstraintError" ->
       exists errs, responds (errorHandler err req) w
         {| sent_status := JNum 400;
            sent_body := envelope_errors (JStr msg_duplicate_data) (JArr errs) |}) /\
    (err_name err = JStr "JsonWebTokenError" ->
       responds (errorHandler err req) w
         {| sent_status := JNum 401;
            sent_body := envelope (JStr msg_invalid_token) |}) /\
    (err_name err <> JStr "SequelizeValidationError" ->
     err_name err <> JStr "SequelizeUniqueConstraintError" ->
     err_name err <> JStr "JsonWebTokenError" ->
       responds (errorHandler err req) w (generic_if_present err)).

(** A stack lets a request through: every ordinary layer whose mount matches
    calls [next()]; the result is the world the next layer sees. *)
Fixpoint through (stack : list Layer) (req : Request) (w : World) : option World :=
  match stack with
  | [] => Some w
  | l :: rest =>
      if mount_matches (mount l) (path req) then
        match handle l with
        | Mw f =>
            match f req w with
            | (Next, w') => through rest req w'
            | _ => None
            end
        | ErrMw _ => through rest req w
        end
      else through rest req w
  end.

(** The [res] of a request nothing has touched yet. *)
Definition fresh_res : Res := {| statusCode := JNum 200; headers := []; sent := [] |}.

(** The limiter serving a sequence of requests one after the other, each with
    a [res] of its own; the result is what each request got and the table at
    the end. *)
Fixpoint burst (o : LimitOptions) (reqs : list Request) (table : gmap string Counter)
    : list (Signal * list Sent) * gmap string Counter :=
  match reqs with
  | [] => ([], table)
  | r :: rest =>
      let '(s, w) := rateLimit o r {| res := fresh_res; hits := table; console := [] |} in
      let '(out, table') := burst o rest (hits w) in
      ((s, sent (res w)) :: out, table')
  end.

(** No counter of [key] is running at time [t]. *)
Definition window_closed (table : gmap string Counter) (key : string) (t : Z) : Prop :=
  match table !! key with
  | Some c => resetTime c <= t
  | None => True
  end.

(** How many requests of the list come from [key]. *)
Definition from_key (key : string) (reqs : list Request) : Z :=
  Z.of_nat (length (filter (fun r => ip r = key) reqs)).

(** The origin policy of a CORS stage, given which origins are [granted]: a
    granted request is not turned into an error (and is passed on unless it
    is a preflight) and its response carries the credential and
    exposed-header grants; any other request becomes the policy error, handed
    to [next], with [res] untouched. *)
Definition origin_policy (granted : option string -> Prop) (o : CorsOptions)
    (req : Request) (w : World) : Prop :=
  (granted (origin req) ->
   exists sg w', cors o req w = (sg, w') /\
     (forall e, sg <> NextErr e) /\
     (method req <> "OPTIONS" -> sg = Next) /\
     ("Access-Control-Allow-Credentials", "true") ∈ headers (res w') /\
     ("Access-Control-Expose-Headers", "Authorization") ∈ headers (res w')) /\
  (~ granted (origin req) ->
   exists w', cors o req w = (NextErr (new_Error msg_cors_blocked), w') /\ res w' = res w).

(** "Absent or a member of the allowed-origin set". *)
Definition absent_or_listed (allowed : list string) (origin : option string) : Prop :=
  origin = None \/ exists s, origin = Some s /\ s ∈ allowed.

(** Absent, empty, or a member of the allowed-origin set. *)
Definition absent_empty_or_listed (allowed : list string) (origin : option string) : Prop :=
  origin = None \/ origin = Some "" \/ exists s, origin = Some s /\ s ∈ allowed.

(** What either origin function hands to its callback. *)
Definition decides (cb : option string -> Eff (option ErrObj * JsVal))
    (allowed : list string) : Prop :=
  forall origin w, exists w',
    res w' = res w /\ hits w' = hits w /\
    cb origin w =
      (Normal (if not_origin origin || includes allowed origin
               then (None, JBool true)
               else (Some (new_Error msg_cors_blocked), JUndefined)), w').

(** What the limiter does with the [n]-th hit of a window. *)
Definition verdict (o : LimitOptions) (n : Z) : Signal * list Sent :=
  if max o <? n
  then (Done, [{| sent_status := JNum 429; sent_body := message o |}])
  else (Next, []).

(** A layer registered with an ordinary (three-parameter) function. *)
Definition ordinary (l : Layer) : Prop :=
  match handle l with
  | Mw _ => True
  | ErrMw _ => False
  end.

(** A layer that leaves the limiter's table as it found it. *)
Definition keeps_hits (l : Layer) : Prop :=
  match handle l with
  | Mw f => forall req w, hits (snd (f req w)) = hits w
  | ErrMw f => forall e req w, hits (snd (f e req w)) = hits w
  end.

(** The denial of the origin function, as the error handler answers it. *)
Definition cors_denial_reply : Sent :=
  {| sent_status := JNum 500; sent_body := envelope (JStr msg_cors_blocked) |}.

(** The limiter is out of play for the requests whose path is [outside]:
    the stack treats them as the stack without the limiter layer ([bare])
    does, and the counter table is left as it was. *)
Definition limiter_frame (outside : string -> Prop) (stack bare : list Layer) : Prop :=
  forall (req : Request) (w : World),
    outside (path req) ->
    dispatch stack None req w = dispatch bare None req w /\
    hits (snd (dispatch stack None req w)) = hits w.

(** "The path does not begin with '/api/'". *)
Definition not_under_api_prefix (p : string) : Prop := String.prefix "/api/" p = false.

(** The path is not matched by the mount path ['/api/']. *)
Definition not_on_api_mount (p : string) : Prop := mount_matches "/api/" p = false.

(** The client address of the sample requests. *)
Definition client : string := "203.0.113.7".

(** An environment that sets the port and nothing else. *)
Definition port_only : gmap string string := <["PORT" := "8080"]> ∅.

(** ** The upload directories and the start sequence (server.js 113-120, 166-184) *)

(** What a path of the file system holds: a directory with its permission
    bits, or a regular file. *)
Inductive Entry : Type :=
  | Dir (mode : Z)
  | File.

(** [fs.existsSync(p)]: true for a directory and for a file alike. *)
Definition existsSync (fs : gmap string Entry) (p : string) : bool :=
  bool_decide (is_Some (fs !! p)).

(** [fs.mkdirSync(p, { recursive: true, mode })] below an existing parent:
    an existing directory is left alone, an existing file makes it throw
    (EEXIST, [None]), otherwise the directory is created with the mode cut
    by the process umask.  (Permission failures are not modelled.) *)
Definition mkdirSync (umask : Z) (p : string) (mode : Z) (fs : gmap string Entry)
    : option (gmap string Entry) :=
  match fs !! p with
  | Some (Dir _) => Some fs
  | Some File => None
  | None => Some (<[p := Dir (Z.ldiff mode umask)]> fs)
  end.

(** [path.join(__dirname, name)] for a plain name. *)
Definition path_join (dirname name : string) : string := dirname ++ "/" ++ name.

(** The body of the [forEach] in [setupUploadDirectories]; ['0755'] is
    493. *)
Definition ensure_dir (dirname : string) (umask : Z) (fs : gmap string Entry)
    (dir : string) : option (gmap string Entry) :=
  let dirPath := path_join dirname dir in
  if negb (existsSync fs dirPath) then mkdirSync umask dirPath 493 fs else Some fs.

(** [['uploads', 'uploadsfile'].forEach(...)] *)
Definition setupUploadDirectories (dirname : string) (umask : Z) (fs : gmap string Entry)
    : option (gmap string Entry) :=
  fs1 ← ensure_dir dirname umask fs "uploads";
  ensure_dir dirname umask fs1 "uploadsfile".

(** [server.listen(PORT, ...)] takes the port, or throws
    ERR_SOCKET_BAD_PORT.  A string that [Number] does not read as a number
    from 0 on is the name of a pipe, and taken; any other is a port, and has
    to be an integer up to 65535 and not blank. *)
Definition listen_accepts (port : string) : bool :=
  match to_double (string_value port) with
  | NaN => true
  | Inf negative => negative
  | Fin negative n d =>
      if negative && (0 <? n) then true
      else negb (String.eqb (skip_ws port) "") && (n mod d =? 0) && (n / d <=? 65535)
  end.

(** The PORT variable where [process.env.PORT || 5001] takes it. *)
Definition env_port (env : gmap string string) : option string :=
  getenv env "PORT" ≫= fun s => if String.eqb s "" then None else Some s.

(** [server.listen] takes the port of this environment (5001 when PORT is
    not set). *)
Definition port_accepted (env : gmap string string) : bool :=
  match env_port env with
  | Some s => listen_accepts s
  | None => true
  end.

(** [startServer] of server.js step by step.  [authenticate] and [sync] are
    what the two database calls reject with, if they do; whatever is thrown in
    the [try] block (by them, by [mkdirSync], by [server.listen]) is logged
    and ends the process with 1.  The result is the outcome, the file system
    and the console lines (newest first); [Listening] says that
    [server.listen] has taken the port. *)
Definition startServer_steps (env : gmap string string) (authenticate sync : option JsVal)
    (dirname : string) (umask : Z) (fs : gmap string Entry)
    : Boot * gmap string Entry * list (list JsVal) :=
  let failed (error : JsVal) (fs0 : gmap string Entry) (log : list (list JsVal)) :=
    (Exit 1, fs0, [JStr "ไม่สามารถเชื่อมต่อฐานข้อมูล:"; error] :: log) in
  match authenticate with
  | Some error => failed error fs []
  | None =>
      let log1 := [[JStr "เชื่อมต่อฐานข้อมูลสำเร็จ"]] in
      match sync with
      | Some error => failed error fs log1
      | None =>
          let log2 := [JStr "ซิงค์ฐานข้อมูลสำเร็จ"] :: log1 in
          match setupUploadDirectories dirname umask fs with
          | None => failed (JObj [("code", JStr "EEXIST")]) fs log2
          | Some fs' =>
              let PORT := js_or (str_val (getenv env "PORT")) (JNum 5001) in
              let text := default "5001" (env_port env) in
              if port_accepted env then
                (Listening PORT (COOKIE_SECRET env), fs',
                 [JStr ("API URL: http://localhost:" ++ text ++ "/api")]
                 :: [JStr ("เซิร์ฟเวอร์ทำงานที่พอร์ต " ++ text)] :: log2)
              else failed (JObj [("code", JStr "ERR_SOCKET_BAD_PORT")]) fs' log2
          end
      end
  end.

(** ** Reading the stack *)

(** What becomes of a request whose last layer gave this signal and after
    which only layers that do not apply are left. *)
Definition finish (sw : Signal * World) : Final * World :=
  match sw with
  | (Done, w) => (Responded, w)
  | (NextErr e, w) => (Unhandled (Some e), w)
  | (Next, w) => (Unhandled None, w)
  end.

(** How often a character occurs in a string. *)
Fixpoint occurrences (c : ascii) (s : string) : nat :=
  match s with
  | EmptyString => 0%nat
  | String c' s' => ((if Ascii.eqb c' c then 1 else 0) + occurrences c s')%nat
  end.

(** The dedicated mount paths that come after the first root-mounted router
    in the list of routes. *)
Definition shadowed_mounts : list string :=
  ["/api/category"; "/api/profile"; "/api/notifications"].

(** The layers of server.js that come before the error handler. *)
Definition admission (x : Externals) (env : gmap string string) : list Layer :=
  Server.security x env ++ use_at "/api/" Server.limiter
    :: use (cors Server.cors_options) :: Server.parsers x ++ statics x ++ routes x.

(** The layers of the second variant that come before the error handler. *)
Definition admission_env (x : Externals) (env : gmap string string) : list Layer :=
  Env.security x env ++ use_at "/api/" Env.limiter
    :: use (cors (Env.cors_options env)) :: Env.parsers x ++ statics x ++ routes x.

(** The replies of the two 404 handlers. *)
Definition not_found_reply : Sent :=
  {| sent_status := JNum 404; sent_body := envelope (JStr msg_not_found) |}.

Definition not_found_echo_reply (req : Request) : Sent :=
  {| sent_status := JNum 404;
     sent_body := envelope (JStr (msg_not_found ++ ": " ++ originalUrl req)) |}.

(** C8 as it is worded: whenever the path of a request matches no route
    mount, the stack answers it with the reply of the 404 handler. *)
Definition not_found_stated (x : Externals) (stack : list Layer) (reply : Request -> Sent)
    : Prop :=
  forall (req : Request) (w : World),
    (forall l, l ∈ routes x -> mount_matches (mount l) (path req) = false) ->
    exists w2, dispatch stack None req w = (Responded, w2) /\
               sent (res w2) = reply req :: sent (res w).

(** A preflight from an allowed origin. *)
Definition preflight (p : string) : Request :=
  {| method := "OPTIONS"; path := p; url := p; originalUrl := p; ip := "203.0.113.7";
     origin := Some "http://localhost:5173"; host := Some "api.example.org";
     forwarded_proto := Some "https"; now := 0 |}.

(** The layers the first variant mounts before its redirect. *)
Definition before_redirect (x : Externals) (env : gmap string string) : list Layer :=
  [ use (ext (cookieParser x (COOKIE_SECRET env)));
    use (ext (helmet x JUndefined));
    use (ext (xss x));
    use (ext (hpp x));
    use (ext (cookieParser x JUndefined)) ].

(** The file system after one round of the [forEach] for the path [q]. *)
Definition ensured (umask : Z) (m : gmap string Entry) (q : string) : gmap string Entry :=
  match m !! q with
  | Some _ => m
  | None => <[q := Dir (Z.ldiff 493 umask)]> m
  end.

(** *** Concrete inputs *)

(** A collaborator that only calls [next()]. *)
Definition pass : External := fun _ r => (Next, r).

(** What [res.redirect] does for a client that takes plain text and a
    target that needs no encoding: 302, the target as Location, and a
    plain-text body with its headers. *)
Definition found : Redirect := fun target _ r =>
  let body := "Found. Redirecting to " ++ target in
  (None, {| statusCode := JNum 302;
            headers := ("Content-Length", pretty (Z.of_nat (String.length body)))
                       :: ("Content-Type", "text/plain; charset=utf-8")
                       :: ("Vary", "Accept")
                       :: ("Location", target) :: headers r;
            sent := {| sent_status := JNum 302; sent_body := JStr body |} :: sent r |}).

(** Packages and routers that all pass the request on. *)
Definition passive : Externals :=
  {| redirect := found; cookieParser := fun _ => pass; helmet := fun _ => pass; xss := pass; hpp := pass;
     express_json := fun _ => pass; express_urlencoded := fun _ => pass;
     express_static := fun _ => pass;
     authRoutes := pass; userRoutes := pass; facultyRoutes := pass; fileRoutes := pass;
     categoryRoutes := pass; activityRoutes := pass; profileRoutes := pass;
     planactivityRoutes := pass; notificationRoutes := pass; contactRoutes := pass |}.

(** A process that has served nothing yet. *)
Definition idle : World := {| res := fresh_res; hits := ∅; console := [] |}.

(** [GET p] from one client address, with Origin header [o], at time [t]. *)
Definition get (p : string) (o : option string) (t : Z) : Request :=
  {| method := "GET"; path := p; url := p; originalUrl := p; ip := client;
     origin := o; host := Some "api.example.org"; forwarded_proto := Some "https"; now := t |}.

(** The client has used up the 1200 requests of a window that ends at
    6000000. *)
Definition at_limit : gmap string Counter :=
  <[client := {| count := 1200; resetTime := 6000000 |}]> ∅.

(** The process in that state. *)
Definition busy : World := {| res := fresh_res; hits := at_limit; console := [] |}.

(** The client went far over the limit in a window that ended at 1000. *)
Definition elapsed : gmap string Counter :=
  <[client := {| count := 5000; resetTime := 1000 |}]> ∅.

(** 1200 further requests of the client at time 2000. *)
Definition window_requests : list Request :=
  replicate 1200%nat (get "/api/user" None 2000).

(** An origin outside the allowed set, and one inside. *)
Definition evil_origin : option string := Some "https://evil.example".
Definition front_origin : option string := Some "http://localhost:5173".

(** Errors as the data layer and the token library raise them. *)
Definition validation_error (errs : JsVal) : ErrObj :=
  {| err_name := JStr "SequelizeValidationError"; err_message := JStr "Validation error";
     err_stack := JStr "SequelizeValidationError: Validation error";
     err_status := JUndefined; err_errors := errs |}.

Definition unique_error (errs : JsVal) : ErrObj :=
  {| err_name := JStr "SequelizeUniqueConstraintError"; err_message := JStr "Validation error";
     err_stack := JStr "SequelizeUniqueConstraintError: Validation error";
     err_status := JUndefined; err_errors := errs |}.

Definition token_error : ErrObj :=
  {| err_name := JStr "JsonWebTokenError"; err_message := JStr "jwt malformed";
     err_stack := JStr "JsonWebTokenError: jwt malformed";
     err_status := JUndefined; err_errors := JUndefined |}.

(** A plain [Error] on which a handler has set [status]. *)
Definition status_error (status : JsVal) (msg : string) : ErrObj :=
  {| err_name := JStr "Error"; err_message := JStr msg;
     err_stack := JStr ("Error: " ++ msg);
     err_status := status; err_errors := JUndefined |}.

(** The [errors] array of a failed uniqueness check. *)
Definition field_items : JsVal :=
  JArr [JObj [("message", JStr "email must be unique"); ("path", JStr "email")]].

(** An environment that lists two origins, the second after a blank. *)
Definition listed_env : gmap string string :=
  <["ALLOWED_ORIGINS" := "https://a.example, https://b.example"]> ∅.

(** An environment with the five required variables. *)
Definition full_env : gmap string string :=
  <["DB_HOST" := "db"]> (<["DB_USER" := "app"]> (<["DB_PASSWORD" := "secret"]>
    (<["DB_NAME" := "volunteer"]> (<["PORT" := "8080"]> ∅)))).

(** An environment whose port is out of range. *)
Definition bad_port : gmap string string := <["PORT" := "70000"]> ∅.

(** A file system in which [uploads] exists as a private directory. *)
Definition some_fs : gmap string Entry := <["/srv/app/uploads" := Dir 448]> ∅.

(** The error the JSON body parser raises for a body over the limit. *)
Definition payload_error : ErrObj :=
  {| err_name := JStr "PayloadTooLargeError"; err_message := JStr "request entity too large";
     err_stack := JStr "PayloadTooLargeError: request entity too large";
     err_status := JNum 413; err_errors := JUndefined |}.

(** Collaborators as [passive], except that the JSON body parser refuses the
    body. *)
Definition oversize : Externals :=
  {| redirect := found; cookieParser := fun _ => pass; helmet := fun _ => pass; xss := pass; hpp := pass;
     express_json := fun _ _ r => (NextErr payload_error, r);
     express_urlencoded := fun _ => pass; express_static := fun _ => pass;
     authRoutes := pass; userRoutes := pass; facultyRoutes := pass; fileRoutes := pass;
     categoryRoutes := pass; activityRoutes := pass; profileRoutes := pass;
     planactivityRoutes := pass; notificationRoutes := pass; contactRoutes := pass |}.

(** Collaborators as [passive], except that the file router answers every
    request it sees. *)
Definition greedy : Externals :=
  {| redirect := found; cookieParser := fun _ => pass; helmet := fun _ => pass; xss := pass; hpp := pass;
     express_json := fun _ => pass; express_urlencoded := fun _ => pass;
     express_static := fun _ => pass;
     authRoutes := pass; userRoutes := pass; facultyRoutes := pass;
     fileRoutes := fun _ r => (Done, r);
     categoryRoutes := pass; activityRoutes := pass; profileRoutes := pass;
     planactivityRoutes := pass; notificationRoutes := pass; contactRoutes := pass |}.

(** A production environment, and a request that came over plain http. *)
Definition production : gmap string string := <["NODE_ENV" := "production"]> ∅.

Definition plain_http : Request :=
  {| method := "GET"; path := "/api/user"; url := "/api/user?page=2";
     originalUrl := "/api/user?page=2"; ip := client; origin := None;
     host := Some "api.example.org"; forwarded_proto := Some "http"; now := 0 |}.

(** * Properties *)

Local Open Scope list_scope.

(** ** JavaScript helpers *)

Lemma is_str_spec (v : JsVal) (lit : string) : is_str v lit = true <-> v = JStr lit.
Proof.
  destruct v as [| |b|n|s|l|ps]; simpl; try (split; [discriminate | congruence]).
  rewrite String.eqb_eq. split; congruence.
Qed.

Lemma is_str_false (v : JsVal) (lit : string) : v <> JStr lit -> is_str v lit = false.
Proof.
  intros Hne. destruct (is_str v lit) eqn:E; [| reflexivity].
  apply is_str_spec in E. contradiction.
Qed.

Lemma map_messages_listed (items ms : list JsVal) :
  map_messages items = Normal ms ->
  forallb (fun e => negb (is_nullish e)) items = true.
Proof.
  revert ms. induction items as [| e items IH]; simpl; intros ms H; [reflexivity |].
  destruct (map_messages items) as [ms' |] eqn:E.
  - rewrite (IH ms' eq_refl). destruct e; simpl in *; try discriminate; reflexivity.
  - destruct e; simpl in H; discriminate.
Qed.

(** ** Status codes *)

Lemma wrap32_small (n : Z) : - 2 ^ 31 <= n < 2 ^ 31 -> wrap32 n = n.
Proof.
  intros H. unfold wrap32.
  rewrite Z.mod_small; lia.
Qed.

Lemma to_int32_num (n : Z) : to_int32 (JNum n) = Normal (wrap32 n).
Proof.
  unfold to_int32, to_number, mbind, completion_bind, int32_of.
  rewrite Z.div_1_r. destruct (n <? 0) eqn:E; f_equal; f_equal; lia.
Qed.

Lemma wire_status_num (n : Z) : 100 <= n <= 999 -> wire_status (JNum n) = Some n.
Proof.
  intros H. unfold wire_status. rewrite to_int32_num, wrap32_small by lia.
  destruct (100 <=? n) eqn:E1; [| lia]. destruct (n <=? 999) eqn:E2; [reflexivity | lia].
Qed.

Lemma wire_status_range (v : JsVal) (code : Z) : wire_status v = Some code -> 100 <= code <= 999.
Proof.
  unfold wire_status. destruct (to_int32 v) as [c |]; [| discriminate].
  destruct (100 <=? c) eqn:E1; [| discriminate]. destruct (c <=? 999) eqn:E2; [| discriminate].
  intros H. injection H as <-. lia.
Qed.

(** [res.json] under a status Node accepts, and under one it refuses. *)
Lemma res_json_writes (body : JsVal) (w : World) (code : Z) :
  wire_status (statusCode (res w)) = Some code ->
  res_json body w =
    (Normal (),
     with_res (fun r => {| statusCode := statusCode r; headers := headers r;
                           sent := {| sent_status := JNum code; sent_body := body |}
                                     :: sent r |}) w).
Proof.
  unfold wire_status, res_json. destruct (to_int32 _) as [c |]; [| discriminate].
  destruct ((100 <=? c) && (c <=? 999)); [| discriminate].
  intros H. injection H as ->. reflexivity.
Qed.

Lemma res_json_refuses (body : JsVal) (w : World) :
  wire_status (statusCode (res w)) = None ->
  exists e, res_json body w = (Throw e, w).
Proof.
  unfold wire_status, res_json. destruct (to_int32 _) as [c | e]; [| eexists; reflexivity].
  destruct ((100 <=? c) && (c <=? 999)); [discriminate | eexists; reflexivity].
Qed.

Lemma res_json_written (body : JsVal) (w w' : World) :
  res_json body w = (Normal (), w') ->
  exists code, wire_status (statusCode (res w)) = Some code /\
    w' = with_res (fun r => {| statusCode := statusCode r; headers := headers r;
                               sent := {| sent_status := JNum code; sent_body := body |}
                                         :: sent r |}) w.
Proof.
  unfold wire_status, res_json. destruct (to_int32 _) as [c |]; [| discriminate].
  destruct ((100 <=? c) && (c <=? 999)); [| discriminate].
  intros H. injection H as <-. eexists. split; reflexivity.
Qed.

(** [res.json] leaves the counters and the console alone, and either
    writes one body or nothing. *)
Lemma res_json_frame (body : JsVal) (w : World) :
  hits (snd (res_json body w)) = hits w /\ console (snd (res_json body w)) = console w.
Proof.
  unfold res_json. destruct (to_int32 _) as [c |]; [| split; reflexivity].
  destruct ((100 <=? c) && (c <=? 999)); split; reflexivity.
Qed.

(** ** The normalizer, branch by branch *)

Lemma map_messages_map (items : list JsVal) :
  forallb (fun e => negb (is_nullish e)) items = true ->
  map_messages items = Normal (map message_of items).
Proof.
  induction items as [| e items IH]; simpl; intros H; [reflexivity |].
  apply andb_prop in H as [He Hrest]. rewrite (IH Hrest).
  destruct e; simpl in *; try discriminate; reflexivity.
Qed.

Section Normalizer.

Variable err : ErrObj.
Variable w : World.

Lemma normalize_validation (items : list JsVal) :
  err_name err = JStr "SequelizeValidationError" ->
  err_errors err = JArr items ->
  forallb (fun e => negb (is_nullish e)) items = true ->
  responds (normalize err) w
    {| sent_status := JNum 400;
       sent_body := envelope_errors (JStr msg_invalid_data) (JArr (map message_of items)) |}.
Proof.
  intros Hn He Hm. unfold responds, normalize.
  rewrite Hn. simpl. unfold lift, errors_map. rewrite He.
  unfold mbind, eff_bind, res_status, completion_bind. simpl.
  rewrite (map_messages_map items Hm).
  eexists. split; reflexivity.
Qed.

Lemma normalize_unique (items : list JsVal) :
  err_name err = JStr "SequelizeUniqueConstraintError" ->
  err_errors err = JArr items ->
  forallb (fun e => negb (is_nullish e)) items = true ->
  responds (normalize err) w
    {| sent_status := JNum 400;
       sent_body := envelope_errors (JStr msg_duplicate_data) (JArr (map message_of items)) |}.
Proof.
  intros Hn He Hm. unfold responds, normalize.
  rewrite Hn. simpl. unfold lift, errors_map. rewrite He.
  unfold mbind, eff_bind, res_status, completion_bind. simpl.
  rewrite (map_messages_map items Hm).
  eexists. split; reflexivity.
Qed.

Lemma normalize_token :
  err_name err = JStr "JsonWebTokenError" ->
  responds (normalize err) w
    {| sent_status := JNum 401; sent_body := envelope (JStr msg_invalid_token) |}.
Proof.
  intros Hn. unfold responds, normalize. rewrite Hn. simpl.
  eexists. split; reflexivity.
Qed.

(** The last branch runs [res.json] under [err.status || 500]. *)
Lemma normalize_generic_run :
  err_name err <> JStr "SequelizeValidationError" ->
  err_name err <> JStr "SequelizeUniqueConstraintError" ->
  err_name err <> JStr "JsonWebTokenError" ->
  normalize err w =
    res_json (envelope (js_or (err_message err) (JStr msg_server_error)))
      (with_res (fun r => {| statusCode := js_or (err_status err) (JNum 500);
                             headers := headers r; sent := sent r |}) w).
Proof.
  intros H1 H2 H3. unfold normalize.
  rewrite (is_str_false _ _ H1), (is_str_false _ _ H2), (is_str_false _ _ H3).
  reflexivity.
Qed.

Lemma normalize_generic (code : Z) :
  err_name err <> JStr "SequelizeValidationError" ->
  err_name err <> JStr "SequelizeUniqueConstraintError" ->
  err_name err <> JStr "JsonWebTokenError" ->
  wire_status (js_or (err_status err) (JNum 500)) = Some code ->
  responds (normalize err) w
    {| sent_status := JNum code;
       sent_body := envelope (js_or (err_message err) (JStr msg_server_error)) |}.
Proof.
  intros H1 H2 H3 Hc. unfold responds.
  rewrite (normalize_generic_run H1 H2 H3), (res_json_writes _ _ code) by exact Hc.
  eexists. split; reflexivity.
Qed.

(** Under a status Node refuses, the last branch throws and nothing is
    written. *)
Lemma normalize_generic_throws :
  err_name err <> JStr "SequelizeValidationError" ->
  err_name err <> JStr "SequelizeUniqueConstraintError" ->
  err_name err <> JStr "JsonWebTokenError" ->
  wire_status (js_or (err_status err) (JNum 500)) = None ->
  exists e w', normalize err w = (Throw e, w') /\ sent (res w') = sent (res w).
Proof.
  intros H1 H2 H3 Hc. rewrite (normalize_generic_run H1 H2 H3).
  destruct (res_json_refuses (envelope (js_or (err_message err) (JStr msg_server_error)))
              (with_res (fun r => {| statusCode := js_or (err_status err) (JNum 500);
                                     headers := headers r; sent := sent r |}) w) Hc)
    as [e He].
  rewrite He. do 2 eexists. split; reflexivity.
Qed.

(** A data-layer name without a usable [errors] array: [res.status(400)]
    has run, the argument of [json] throws, nothing is written. *)
Lemma normalize_throws :
  data_layer_name err = true -> errors_listed err = false ->
  exists e w', normalize err w = (Throw e, w') /\ sent (res w') = sent (res w).
Proof.
  unfold data_layer_name, errors_listed, normalize. intros Hn He.
  assert (Hthrow : exists e, errors_map (err_errors err) = Throw e).
  { unfold errors_map. destruct (err_errors err) as [| | | | |items|]; try (eexists; reflexivity).
    destruct (map_messages items) as [ms|e] eqn:E; [| eexists; reflexivity].
    apply map_messages_listed in E. congruence. }
  destruct Hthrow as [e Hthrow].
  destruct (is_str (err_name err) "SequelizeValidationError").
  - exists e. eexists. unfold mbind, eff_bind, lift, res_status. rewrite Hthrow.
    split; reflexivity.
  - simpl in Hn. rewrite Hn.
    exists e. eexists. unfold mbind, eff_bind, lift, res_status. rewrite Hthrow.
    split; reflexivity.
Qed.

(** The errors the normalizer answers, and those on which it throws. *)
Lemma normalize_responds :
  answerable err = true -> exists s, responds (normalize err) w s.
Proof.
  unfold answerable, data_layer_name, errors_listed. intros Hwf.
  destruct (is_str (err_name err) "SequelizeValidationError") eqn:EV;
    [| destruct (is_str (err_name err) "SequelizeUniqueConstraintError") eqn:EU;
       [| destruct (is_str (err_name err) "JsonWebTokenError") eqn:EJ]]; simpl in Hwf.
  - destruct (err_errors err) as [| | | | |items|] eqn:EE; try discriminate.
    eexists. eapply normalize_validation; [apply is_str_spec, EV | exact EE | exact Hwf].
  - destruct (err_errors err) as [| | | | |items|] eqn:EE; try discriminate.
    eexists. eapply normalize_unique; [apply is_str_spec, EU | exact EE | exact Hwf].
  - eexists. apply normalize_token. apply is_str_spec, EJ.
  - destruct (wire_status (js_or (err_status err) (JNum 500))) as [code |] eqn:Ec;
      [| discriminate].
    eexists. apply (normalize_generic code); try exact Ec;
      intros Heq; apply is_str_spec in Heq; congruence.
Qed.

Lemma normalize_refuses :
  answerable err = false ->
  exists e w', normalize err w = (Throw e, w') /\ sent (res w') = sent (res w).
Proof.
  unfold answerable. intros Hwf.
  destruct (data_layer_name err) eqn:Ed; [apply normalize_throws; assumption |].
  unfold data_layer_name in Ed. apply orb_false_elim in Ed as [EV EU].
  destruct (is_str (err_name err) "JsonWebTokenError") eqn:EJ; [discriminate |].
  destruct (wire_status (js_or (err_status err) (JNum 500))) as [code |] eqn:Ec;
    [discriminate |].
  apply normalize_generic_throws; try exact Ec;
    intros Heq; apply is_str_spec in Heq; congruence.
Qed.

End Normalizer.

(** The log lines do not touch [res]. *)
Lemma errorHandler_normalize (err : ErrObj) (req : Request) (w : World) :
  exists w0, res w0 = res w /\ hits w0 = hits w /\
             errorHandler err req w = normalize err w0.
Proof. eexists. split; [| split]; [| | reflexivity]; reflexivity. Qed.

Lemma errorHandler_detailed_normalize (err : ErrObj) (req : Request) (w : World) :
  exists w0, res w0 = res w /\ hits w0 = hits w /\
             errorHandler_detailed err req w = normalize err w0.
Proof. eexists. split; [| split]; [| | reflexivity]; reflexivity. Qed.

Lemma responds_after_log (h : Eff unit) (k : Eff unit) (w : World) (s : Sent) :
  (exists w0, res w0 = res w /\ hits w0 = hits w /\ h w = k w0) ->
  (forall w0, responds k w0 s) -> responds h w s.
Proof.
  intros (w0 & Hres & _ & Hrun) Hk. destruct (Hk w0) as (w' & Hw' & Hsent).
  exists w'. rewrite Hrun, <- Hres. split; assumption.
Qed.

Lemma errorHandler_throws (err : ErrObj) (req : Request) (w : World) :
  answerable err = false ->
  (exists e w', errorHandler err req w = (Throw e, w') /\ sent (res w') = sent (res w)) /\
  (exists e w', errorHandler_detailed err req w = (Throw e, w') /\ sent (res w') = sent (res w)).
Proof.
  intros Hn. split.
  - destruct (errorHandler_normalize err req w) as (w0 & Hres & _ & ->).
    rewrite <- Hres. apply normalize_refuses; assumption.
  - destruct (errorHandler_detailed_normalize err req w) as (w0 & Hres & _ & ->).
    rewrite <- Hres. apply normalize_refuses; assumption.
Qed.

(** What a reply of the normalizer looks like, read off the run. *)
Lemma normalize_reply (err : ErrObj) (w : World) (s : Sent) :
  responds (normalize err) w s ->
  (data_layer_name err = true /\
   exists m errs, sent_status s = JNum 400 /\ sent_body s = envelope_errors m errs) \/
  (data_layer_name err = false /\ exists m, sent_body s = envelope m).
Proof.
  intros (w' & Hrun & Hsent). unfold normalize, data_layer_name in *.
  destruct (is_str (err_name err) "SequelizeValidationError");
    [| destruct (is_str (err_name err) "SequelizeUniqueConstraintError");
       [| destruct (is_str (err_name err) "JsonWebTokenError")]].
  1,2: left; split; [reflexivity |];
       unfold mbind, eff_bind, lift, res_status in Hrun;
       destruct (errors_map (err_errors err)) as [errs | e]; simpl in Hrun;
       [| discriminate];
       injection Hrun as <-; simpl in Hsent; injection Hsent as <-;
       do 2 eexists; split; reflexivity.
  1,2: right; split; [reflexivity |];
       unfold mbind, eff_bind, res_status in Hrun;
       apply res_json_written in Hrun as (code & _ & ->);
       simpl in Hsent; injection Hsent as <-;
       eexists; reflexivity.
Qed.

(** ** C1 *)

(** C1 (amended).  On a [res] nothing has been written to, the error handler
    classifies by [err.name].  A SequelizeValidationError whose [errors] is
    an array without [undefined] or [null] elements gets 400, the
    invalid-data message and the list of the elements' messages; a
    SequelizeUniqueConstraintError with such an array gets 400, the
    duplicate-data message and that list; a JsonWebTokenError gets 401, the
    invalid-token message and no [errors] key.  Any other error gets the
    message [err.message || generic message] and the status
    [err.status || 500]: 500 when the declared status is falsy; when it is
    truthy, the code it makes as a 32-bit integer, provided that code lies
    in 100..999 (outside 200..299, which the statement leaves to Express:
    it answers a conditional GET whose validators match with 304) -- in
    particular the declared status itself when it is such a number. *)
Theorem error_classification (err : ErrObj) (req : Request) (w : World) :
  sent (res w) = [] ->
  (err_name err = JStr "SequelizeValidationError" ->
   forall items, err_errors err = JArr items ->
     forallb (fun e => negb (is_nullish e)) items = true ->
     responds (errorHandler err req) w
       {| sent_status := JNum 400;
          sent_body := envelope_errors (JStr msg_invalid_data)
                                       (JArr (map message_of items)) |}) /\
  (err_name err = JStr "SequelizeUniqueConstraintError" ->
   forall items, err_errors err = JArr items ->
     forallb (fun e => negb (is_nullish e)) items = true ->
     responds (errorHandler err req) w
       {| sent_status := JNum 400;
          sent_body := envelope_errors (JStr msg_duplicate_data)
                                       (JArr (map message_of items)) |}) /\
  (err_name err = JStr "JsonWebTokenError" ->
     responds (errorHandler err req) w
       {| sent_status := JNum 401;
          sent_body := envelope (JStr msg_invalid_token) |}) /\
  (err_name err <> JStr "SequelizeValidationError" ->
   err_name err <> JStr "SequelizeUniqueConstraintError" ->
   err_name err <> JStr "JsonWebTokenError" ->
     (truthy (err_status err) = false ->
        responds (errorHandler err req) w
          {| sent_status := JNum 500;
             sent_body := envelope (js_or (err_message err) (JStr msg_server_error)) |}) /\
     (forall code, truthy (err_status err) = true ->
        wire_status (err_status err) = Some code -> ~ 200 <= code <= 299 ->
        responds (errorHandler err req) w
          {| sent_status := JNum code;
             sent_body := envelope (js_or (err_message err) (JStr msg_server_error)) |}) /\
     (forall n, err_status err = JNum n -> 100 <= n <= 999 -> ~ 200 <= n <= 299 ->
        responds (errorHandler err req) w
          {| sent_status := JNum n;
             sent_body := envelope (js_or (err_message err) (JStr msg_server_error)) |})).
Proof.
  intros _. split; [| split; [| split]].
  - intros Hn items He Hm.
    eapply responds_after_log; [apply errorHandler_normalize | intros w0].
    apply normalize_validation; assumption.
  - intros Hn items He Hm.
    eapply responds_after_log; [apply errorHandler_normalize | intros w0].
    apply normalize_unique; assumption.
  - intros Hn.
    eapply responds_after_log; [apply errorHandler_normalize | intros w0].
    apply normalize_token; assumption.
  - intros H1 H2 H3. split; [| split].
    + intros Hf.
      eapply responds_after_log; [apply errorHandler_normalize | intros w0].
      apply normalize_generic; try assumption.
      unfold js_or. rewrite Hf. reflexivity.
    + intros code Ht Hc _.
      eapply responds_after_log; [apply errorHandler_normalize | intros w0].
      apply normalize_generic; try assumption.
      unfold js_or. rewrite Ht. exact Hc.
    + intros n Hs Hn _.
      eapply responds_after_log; [apply errorHandler_normalize | intros w0].
      apply normalize_generic; try assumption.
      rewrite Hs. unfold js_or. simpl.
      destruct (n =? 0) eqn:E; [lia |]. simpl. apply wire_status_num. exact Hn.
Qed.

Lemma error_classification_witness :
  responds (errorHandler (validation_error field_items) (get "/api/user" None 0)) idle
    {| sent_status := JNum 400;
       sent_body := envelope_errors (JStr msg_invalid_data)
                                    (JArr [JStr "email must be unique"]) |} /\
  responds (errorHandler (unique_error field_items) (get "/api/user" None 0)) idle
    {| sent_status := JNum 400;
       sent_body := envelope_errors (JStr msg_duplicate_data)
                                    (JArr [JStr "email must be unique"]) |} /\
  responds (errorHandler token_error (get "/api/user" None 0)) idle
    {| sent_status := JNum 401; sent_body := envelope (JStr msg_invalid_token) |} /\
  responds (errorHandler (status_error JNull "") (get "/api/user" None 0)) idle
    {| sent_status := JNum 500; sent_body := envelope (JStr msg_server_error) |} /\
  responds (errorHandler (status_error (JStr "404") "no such activity")
                         (get "/api/user" None 0)) idle
    {| sent_status := JNum 404; sent_body := envelope (JStr "no such activity") |} /\
  responds (errorHandler (status_error (JNum 403) "forbidden") (get "/api/user" None 0)) idle
    {| sent_status := JNum 403; sent_body := envelope (JStr "forbidden") |}.
Proof.
  split; [| split; [| split; [| split; [| split]]]].
  - destruct (error_classification (validation_error field_items)
                (get "/api/user" None 0) idle eq_refl) as (H & _).
    apply (H eq_refl _ eq_refl eq_refl).
  - destruct (error_classification (unique_error field_items)
                (get "/api/user" None 0) idle eq_refl) as (_ & H & _).
    apply (H eq_refl _ eq_refl eq_refl).
  - destruct (error_classification token_error
                (get "/api/user" None 0) idle eq_refl) as (_ & _ & H & _).
    apply (H eq_refl).
  - destruct (error_classification (status_error JNull "")
                (get "/api/user" None 0) idle eq_refl) as (_ & _ & _ & H).
    destruct H as (H & _); [discriminate | discriminate | discriminate |].
    apply (H eq_refl).
  - destruct (error_classification (status_error (JStr "404") "no such activity")
                (get "/api/user" None 0) idle eq_refl) as (_ & _ & _ & H).
    destruct H as (_ & H & _); [discriminate | discriminate | discriminate |].
    apply (H 404 eq_refl); [vm_compute; reflexivity | lia].
  - destruct (error_classification (status_error (JNum 403) "forbidden")
                (get "/api/user" None 0) idle eq_refl) as (_ & _ & _ & H).
    destruct H as (_ & _ & H); [discriminate | discriminate | discriminate |].
    apply (H 403 eq_refl); lia.
Defined.

(** C1 as worded fails in three ways.  "Declared status if present else
    500": an error that declares status 0 is answered with 500 (and one that
    declares the empty message with the generic message), and for an error
    that declares status 1000 the handler throws and nothing is written.
    "An errors list mapped from the field-level messages": for a
    SequelizeValidationError without [errors] the handler throws as well. *)
Lemma classification_as_worded_fails :
  ~ classification_stated (status_error (JNum 0) "upstream unreachable") /\
  ~ classification_stated (status_error (JNum 502) "") /\
  ~ classification_stated (status_error (JNum 1000) "out of range") /\
  ~ classification_stated (validation_error JUndefined).
Proof.
  split; [| split; [| split]]; intros H;
    destruct (H (get "/api/user" None 0) idle) as (Hv & _ & _ & Hgen).
  4: destruct (Hv eq_refl) as (errs & w' & Hrun & _); vm_compute in Hrun; discriminate.
  all: destruct Hgen as (w' & Hrun & Hsent); try discriminate;
    vm_compute in Hrun; try discriminate; injection Hrun as <-;
    vm_compute in Hsent; discriminate.
Qed.

(** ** C2 *)

(** C2 (amended).  On a [res] nothing has been written to, the error handler
    (of server.js and of the first variant) returns normally having written
    exactly one JSON response for every error object that has a data-layer
    name and an [errors] array without [undefined] or [null] elements, that
    is named JsonWebTokenError, or that has another name and a status
    [err.status || 500] which makes, as a 32-bit integer, a code in
    100..999. *)
Theorem normalizer_responds_once (err : ErrObj) (req : Request) (w : World) :
  sent (res w) = [] ->
  answerable err = true ->
  (exists s w', errorHandler err req w = (Normal (), w') /\ sent (res w') = [s]) /\
  (exists s w', errorHandler_detailed err req w = (Normal (), w') /\ sent (res w') = [s]).
Proof.
  intros Hfresh Hwf. split.
  - destruct (errorHandler_normalize err req w) as (w0 & Hres & Hhits & Hrun).
    destruct (normalize_responds err w0 Hwf) as [s (w' & Hw' & Hsent)]. exists s, w'.
    rewrite Hrun, <- Hfresh, <- Hres. split; assumption.
  - destruct (errorHandler_detailed_normalize err req w) as (w0 & Hres & Hhits & Hrun).
    destruct (normalize_responds err w0 Hwf) as [s (w' & Hw' & Hsent)]. exists s, w'.
    rewrite Hrun, <- Hfresh, <- Hres. split; assumption.
Qed.

Lemma normalizer_responds_once_witness :
  (exists s w', errorHandler (unique_error field_items) (get "/api/user" None 0) idle
                = (Normal (), w') /\ sent (res w') = [s]) /\
  (exists s w', errorHandler_detailed (payload_error) (get "/api/user" None 0) idle
                = (Normal (), w') /\ sent (res w') = [s]).
Proof.
  split.
  - apply (normalizer_responds_once (unique_error field_items) (get "/api/user" None 0) idle);
      reflexivity.
  - apply (normalizer_responds_once payload_error (get "/api/user" None 0) idle);
      reflexivity.
Defined.

(** C2 as stated fails: for a SequelizeValidationError whose [errors] is
    absent, [err.errors.map] throws; for an error that declares status 1000,
    [res.json] throws; in both cases no response is written. *)
Lemma normalizer_can_throw :
  (~ exists s, responds (errorHandler (validation_error JUndefined) (get "/api/user" None 0))
                        idle s) /\
  (~ exists s, responds (errorHandler (status_error (JNum 1000) "out of range")
                                      (get "/api/user" None 0))
                        idle s) /\
  (exists e, errorHandler (validation_error JUndefined) (get "/api/user" None 0) idle
             = (Throw e, {| res := {| statusCode := JNum 400; headers := []; sent := [] |};
                            hits := ∅;
                            console := [[JStr "Stack:";
                                         JStr "SequelizeValidationError: Validation error"];
                                        [JStr "Error:"; JStr "Validation error"]] |})) /\
  (exists e, errorHandler (status_error (JNum 1000) "out of range") (get "/api/user" None 0) idle
             = (Throw e, {| res := {| statusCode := JNum 1000; headers := []; sent := [] |};
                            hits := ∅;
                            console := [[JStr "Stack:"; JStr "Error: out of range"];
                                        [JStr "Error:"; JStr "out of range"]] |})).
Proof.
  split; [| split; [| split]].
  - intros (s & w' & Hrun & _). vm_compute in Hrun. discriminate.
  - intros (s & w' & Hrun & _). vm_compute in Hrun. discriminate.
  - eexists. vm_compute. reflexivity.
  - eexists. vm_compute. reflexivity.
Qed.

(** ** C3 *)

Lemma rateLimit_rejects (o : LimitOptions) (req : Request) (w w' : World) :
  rateLimit o req w = (Done, w') ->
  max o < count (hit o (ip req) (now req) (hits w)) /\
  sent (res w') = {| sent_status := JNum 429; sent_body := message o |} :: sent (res w).
Proof.
  unfold rateLimit. destruct (max o <? count _) eqn:E; [| discriminate].
  intros H. injection H as <-. split; [lia | reflexivity].
Qed.

(** C3.  Every response written by the error handler has [success: false],
    and it has an [errors] key exactly in the validation and uniqueness
    branches; the body the limiter rejects with and the body of the 404
    handler have [success: false] and no [errors] key. *)
Theorem error_envelope (err : ErrObj) (req : Request) (w w' : World) (s : Sent) :
  (responds (errorHandler err req) w s \/ responds (errorHandler_detailed err req) w s ->
   field "success" (sent_body s) = Some (JBool false) /\
   (is_Some (field "errors" (sent_body s)) <-> data_layer_name err = true)) /\
  (forall o, o = Server.limiter_options \/ o = Https.limiter_options \/ o = Env.limiter_options ->
   rateLimit o req w = (Done, w') ->
   sent (res w') = {| sent_status := JNum 429; sent_body := message o |} :: sent (res w) /\
   field "success" (message o) = Some (JBool false) /\
   field "errors" (message o) = None) /\
  (responds (notFound req) w s \/ responds (notFound_echo req) w s ->
   sent_status s = JNum 404 /\
   field "success" (sent_body s) = Some (JBool false) /\
   field "errors" (sent_body s) = None).
Proof.
  split; [| split].
  - intros H.
    assert (Hn : exists w0, responds (normalize err) w0 s).
    { destruct H as [(w1 & Hrun & Hsent) | (w1 & Hrun & Hsent)].
      - destruct (errorHandler_normalize err req w) as (w0 & Hres & _ & Heq).
        exists w0, w1. rewrite <- Heq, Hres. split; assumption.
      - destruct (errorHandler_detailed_normalize err req w) as (w0 & Hres & _ & Heq).
        exists w0, w1. rewrite <- Heq, Hres. split; assumption. }
    destruct Hn as [w0 Hn].
    destruct (normalize_reply err w0 s Hn) as [(Hd & m & errs & _ & Hb) | (Hd & m & Hb)];
      rewrite Hb, Hd; simpl; split; try reflexivity.
    + split; [reflexivity | intros _; eexists; reflexivity].
    + split; [intros [v Hv]; discriminate | discriminate].
  - intros o Ho Hrun. apply rateLimit_rejects in Hrun as [_ Hsent].
    split; [exact Hsent |].
    destruct Ho as [-> | [-> | ->]]; split; reflexivity.
  - intros [(w1 & Hrun & Hsent) | (w1 & Hrun & Hsent)];
      injection Hrun as <-; simpl in Hsent; injection Hsent as <-;
      repeat split; reflexivity.
Qed.

Lemma error_envelope_witness :
  (field "success" (envelope_errors (JStr msg_duplicate_data)
                                    (JArr [JStr "email must be unique"]))
   = Some (JBool false) /\
   (is_Some (field "errors" (envelope_errors (JStr msg_duplicate_data)
                                             (JArr [JStr "email must be unique"])))
    <-> data_layer_name (unique_error field_items) = true)) /\
  (sent (res (snd (rateLimit Server.limiter_options (get "/api/user" None 5000) busy)))
   = [{| sent_status := JNum 429; sent_body := message Server.limiter_options |}] /\
   field "success" (message Server.limiter_options) = Some (JBool false) /\
   field "errors" (message Server.limiter_options) = None) /\
  (field "success" (envelope (JStr msg_not_found)) = Some (JBool false) /\
   field "errors" (envelope (JStr msg_not_found)) = None).
Proof.
  split; [| split].
  - apply (proj1 (error_envelope (unique_error field_items) (get "/api/user" None 0)
                    idle idle
                    {| sent_status := JNum 400;
                       sent_body := envelope_errors (JStr msg_duplicate_data)
                                      (JArr [JStr "email must be unique"]) |})).
    left. eexists. split; reflexivity.
  - apply (proj1 (proj2 (error_envelope token_error (get "/api/user" None 5000) busy
                           (snd (rateLimit Server.limiter_options
                                           (get "/api/user" None 5000) busy))
                           {| sent_status := JNum 404;
                              sent_body := envelope (JStr msg_not_found) |}))
             Server.limiter_options).
    + left. reflexivity.
    + vm_compute. reflexivity.
  - apply (proj2 (proj2 (error_envelope token_error (get "/nowhere" None 0) idle idle
                           {| sent_status := JNum 404;
                              sent_body := envelope (JStr msg_not_found) |}))).
    left. eexists. split; reflexivity.
Defined.

(** ** C4 *)

Lemma rateLimit_hits (o : LimitOptions) (req : Request) (w : World) :
  hits (snd (rateLimit o req w)) = <[ip req := hit o (ip req) (now req) (hits w)]> (hits w).
Proof. unfold rateLimit. destruct (max o <? _); reflexivity. Qed.

Lemma rateLimit_verdict (o : LimitOptions) (req : Request) (table : gmap string Counter) :
  let w := {| res := fresh_res; hits := table; console := [] |} in
  (fst (rateLimit o req w), sent (res (snd (rateLimit o req w))))
  = verdict o (count (hit o (ip req) (now req) table)).
Proof. unfold rateLimit, verdict. simpl. destruct (max o <? _); reflexivity. Qed.

Lemma burst_cons (o : LimitOptions) (r : Request) (rest : list Request)
    (table : gmap string Counter) :
  burst o (r :: rest) table =
    (verdict o (count (hit o (ip r) (now r) table))
       :: fst (burst o rest (<[ip r := hit o (ip r) (now r) table]> table)),
     snd (burst o rest (<[ip r := hit o (ip r) (now r) table]> table))).
Proof.
  pose proof (rateLimit_verdict o r table) as Hv.
  pose proof (rateLimit_hits o r {| res := fresh_res; hits := table; console := [] |}) as Hh.
  simpl in *. destruct (rateLimit o r _) as [s w]. simpl in *.
  rewrite <- Hh, <- Hv. destruct (burst o rest (hits w)) as [out table']. reflexivity.
Qed.

Lemma hit_open (o : LimitOptions) (key : string) (t : Z)
    (table : gmap string Counter) (c : Counter) :
  table !! key = Some c -> t < resetTime c ->
  hit o key t table = {| count := count c + 1; resetTime := resetTime c |}.
Proof.
  intros Hc Ht. unfold hit. rewrite Hc.
  destruct (resetTime c <=? t) eqn:E; [lia | reflexivity].
Qed.

Lemma hit_closed (o : LimitOptions) (key : string) (t : Z) (table : gmap string Counter) :
  window_closed table key t ->
  hit o key t table = {| count := 1; resetTime := t + windowMs o |}.
Proof.
  unfold window_closed, hit. destruct (table !! key) as [c |]; [| reflexivity].
  intros Hc. destruct (resetTime c <=? t) eqn:E; [reflexivity | lia].
Qed.

Lemma from_key_cons (key : string) (r : Request) (rest : list Request) :
  from_key key (r :: rest) = (if decide (ip r = key) then 1 else 0) + from_key key rest.
Proof.
  unfold from_key. rewrite filter_cons. destruct (decide (ip r = key)); simpl length; lia.
Qed.

(** Inside a running window every hit of the key adds one; hits of other
    keys leave its counter alone. *)
Lemma burst_in_window (o : LimitOptions) (key : string) (reqs : list Request) :
  forall (table : gmap string Counter) (c : Counter),
    table !! key = Some c ->
    (forall q, q ∈ reqs -> ip q = key -> now q < resetTime c) ->
    (forall i q, reqs !! i = Some q -> ip q = key ->
       fst (burst o reqs table) !! i
       = Some (verdict o (count c + 1 + from_key key (take i reqs)))) /\
    snd (burst o reqs table) !! key
    = Some {| count := count c + from_key key reqs; resetTime := resetTime c |}.
Proof.
  induction reqs as [| r rest IH]; intros table c Hc Hwin.
  - split; [intros i q Hi; discriminate |].
    simpl. rewrite Hc. unfold from_key. simpl. destruct c; simpl. do 2 f_equal. lia.
  - rewrite burst_cons. simpl fst. simpl snd. rewrite from_key_cons.
    destruct (decide (ip r = key)) as [Hk | Hk].
    + assert (Hhit : hit o (ip r) (now r) table
                     = {| count := count c + 1; resetTime := resetTime c |}).
      { rewrite Hk. apply hit_open; [exact Hc |]. apply Hwin; [left | exact Hk]. }
      rewrite Hhit.
      destruct (IH (<[ip r := {| count := count c + 1; resetTime := resetTime c |}]> table)
                   {| count := count c + 1; resetTime := resetTime c |}) as [IHv IHt].
      { rewrite Hk. apply lookup_insert_eq. }
      { simpl. intros q Hq. apply Hwin. right. exact Hq. }
      simpl in IHv, IHt. split.
      * intros [| i] q Hi Hq; simpl in Hi.
        -- simpl. unfold from_key. simpl. do 2 f_equal. lia.
        -- simpl. rewrite (IHv i q Hi Hq), from_key_cons.
           destruct (decide (ip r = key)); [| contradiction]. do 2 f_equal. lia.
      * rewrite IHt. do 2 f_equal. lia.
    + destruct (IH (<[ip r := hit o (ip r) (now r) table]> table) c) as [IHv IHt].
      { rewrite lookup_insert_ne; assumption. }
      { intros q Hq. apply Hwin. right. exact Hq. }
      split.
      * intros [| i] q Hi Hq; simpl in Hi.
        -- injection Hi as ->. contradiction.
        -- simpl. rewrite (IHv i q Hi Hq), from_key_cons.
           destruct (decide (ip r = key)); [contradiction |]. do 2 f_equal.
      * rewrite IHt. do 2 f_equal.
Qed.

(** C4.  The limiter creates or resets the counter of the client's key to 1
    when there is none or its window has elapsed, and adds one otherwise.
    When a window of [key] opens with [first] (no counter, or an elapsed one
    whatever its count) and the later requests of [key] fall in that window,
    the [n]-th request of [key] is forwarded if [n <= max] and is answered
    with 429 and the configured body, without [next()], if [n > max]; a
    rejected request ends the dispatch. *)
Theorem rate_limit_window (o : LimitOptions) (key : string)
    (table : gmap string Counter) (first : Request) (reqs : list Request) :
  ip first = key ->
  window_closed table key (now first) ->
  (forall q, q ∈ reqs -> ip q = key -> now q < now first + windowMs o) ->
  (forall req w, hits (snd (rateLimit o req w)) !! ip req =
     Some (match hits w !! ip req with
           | Some c => if resetTime c <=? now req
                       then {| count := 1; resetTime := now req + windowMs o |}
                       else {| count := count c + 1; resetTime := resetTime c |}
           | None => {| count := 1; resetTime := now req + windowMs o |}
           end)) /\
  (forall i q, (first :: reqs) !! i = Some q -> ip q = key ->
     fst (burst o (first :: reqs) table) !! i
     = Some (verdict o (1 + from_key key (take i (first :: reqs))))) /\
  snd (burst o (first :: reqs) table) !! key
  = Some {| count := 1 + from_key key reqs; resetTime := now first + windowMs o |} /\
  (forall rest req w, mount_matches "/api/" (path req) = true ->
     fst (rateLimit o req w) = Done ->
     dispatch (use_at "/api/" (rateLimit o) :: rest) None req w
     = (Responded, snd (rateLimit o req w))).
Proof.
  intros Hk Hclosed Hwin. split; [| split; [| split]].
  - intros req w. rewrite rateLimit_hits, lookup_insert_eq. reflexivity.
  - rewrite burst_cons, Hk, (hit_closed o key _ table Hclosed). simpl count.
    destruct (burst_in_window o key reqs
                (<[key := {| count := 1; resetTime := now first + windowMs o |}]> table)
                {| count := 1; resetTime := now first + windowMs o |}) as [Hv _].
    { apply lookup_insert_eq. }
    { exact Hwin. }
    simpl in Hv. intros [| i] q Hi Hq; simpl in Hi; simpl.
    + unfold from_key. simpl. reflexivity.
    + rewrite (Hv i q Hi Hq), from_key_cons, Hk.
      destruct (decide (key = key)); [| contradiction]. do 2 f_equal. lia.
  - rewrite burst_cons, Hk, (hit_closed o key _ table Hclosed). simpl snd.
    destruct (burst_in_window o key reqs
                (<[key := {| count := 1; resetTime := now first + windowMs o |}]> table)
                {| count := 1; resetTime := now first + windowMs o |}) as [_ Ht].
    { apply lookup_insert_eq. }
    { exact Hwin. }
    exact Ht.
  - intros rest req w Hm Hdone. cbn [dispatch use_at mount handle]. rewrite Hm.
    destruct (rateLimit o req w) as [sg w']. simpl in *. subst sg. reflexivity.
Qed.

Lemma rate_limit_window_witness :
  fst (burst Server.limiter_options (get "/api/user" None 1000 :: window_requests) elapsed)
    !! 1199%nat = Some (Next, []) /\
  fst (burst Server.limiter_options (get "/api/user" None 1000 :: window_requests) elapsed)
    !! 1200%nat
  = Some (Done, [{| sent_status := JNum 429;
                    sent_body := message Server.limiter_options |}]) /\
  snd (burst Server.limiter_options (get "/api/user" None 1000 :: window_requests) elapsed)
    !! client = Some {| count := 1201; resetTime := 6001000 |}.
Proof.
  assert (Hclosed : window_closed elapsed client (now (get "/api/user" None 1000))).
  { unfold window_closed, elapsed. rewrite lookup_insert_eq. simpl. lia. }
  assert (Hwin : forall q, q ∈ window_requests -> ip q = client ->
                           now q < now (get "/api/user" None 1000)
                                   + windowMs Server.limiter_options).
  { intros q Hq _. apply elem_of_replicate in Hq as [-> _]. simpl. lia. }
  destruct (rate_limit_window Server.limiter_options client elapsed
              (get "/api/user" None 1000) window_requests
              eq_refl Hclosed Hwin) as (_ & Hv & Ht & _).
  split; [| split].
  - rewrite (Hv 1199%nat (get "/api/user" None 2000) eq_refl eq_refl).
    vm_compute. reflexivity.
  - rewrite (Hv 1200%nat (get "/api/user" None 2000) eq_refl eq_refl).
    vm_compute. reflexivity.
  - rewrite Ht. vm_compute. reflexivity.
Defined.

(** ** C5 *)

Lemma includes_spec (allowed : list string) (s : string) :
  includes allowed (Some s) = true <-> s ∈ allowed.
Proof.
  simpl. rewrite existsb_exists. split.
  - intros (y & Hy & Heq). apply String.eqb_eq in Heq. subst.
    apply list_elem_of_In. exact Hy.
  - intros Hs. exists s. split; [apply list_elem_of_In, Hs | apply String.eqb_refl].
Qed.

Lemma granted_spec (allowed : list string) (origin : option string) :
  not_origin origin || includes allowed origin = true
  <-> absent_empty_or_listed allowed origin.
Proof.
  unfold absent_empty_or_listed. destruct origin as [s |]; simpl not_origin.
  - rewrite orb_true_iff, String.eqb_eq, includes_spec. split.
    + intros [-> | Hs]; [right; left; reflexivity | right; right; eauto].
    + intros [H | [H | (s' & H & Hs)]]; [discriminate | left; congruence |].
      right. congruence.
  - simpl. split; [left; reflexivity | reflexivity].
Qed.

Lemma originCallback_decides (allowed : list string) :
  decides (originCallback allowed) allowed.
Proof.
  intros origin w. unfold originCallback.
  destruct (not_origin origin || includes allowed origin);
    eexists; (split; [| split]); [| | reflexivity | | | reflexivity]; reflexivity.
Qed.

Lemma originCallback_quiet_decides (allowed : list string) :
  decides (originCallback_quiet allowed) allowed.
Proof.
  intros origin w. unfold originCallback_quiet.
  destruct (not_origin origin || includes allowed origin);
    eexists; (split; [| split]); [| | reflexivity | | | reflexivity]; reflexivity.
Qed.

(** The CORS stage under the options of the three files. *)
Lemma cors_policy (o : CorsOptions) (allowed : list string) (req : Request) (w : World) :
  decides (cors_origin o) allowed ->
  cors_credentials o = true ->
  cors_exposedHeaders o = ["Authorization"] ->
  origin_policy (absent_empty_or_listed allowed) o req w.
Proof.
  intros Hcb Hcred Hexp. unfold origin_policy.
  destruct (Hcb (origin req) w) as (w1 & Hres & _ & Hrun).
  rewrite <- granted_spec. unfold cors. rewrite Hrun.
  destruct (not_origin (origin req) || includes allowed (origin req)) eqn:G; split;
    try (intros; congruence).
  - intros _. simpl.
    assert (Hin : forall rest,
      ("Access-Control-Allow-Credentials", "true") ∈ (cors_headers o (origin req) ++ rest)%list /\
      ("Access-Control-Expose-Headers", "Authorization")
        ∈ (cors_headers o (origin req) ++ rest)%list).
    { intros rest. unfold cors_headers. rewrite Hcred, Hexp. simpl String.concat.
      split; apply elem_of_app; left; apply elem_of_app; right; set_solver. }
    destruct (String.eqb (method req) "OPTIONS") eqn:Em.
    + do 2 eexists. split; [reflexivity |]. simpl.
      split; [discriminate |]. split; [apply String.eqb_eq in Em; congruence |].
      split; right; right; apply Hin.
    + do 2 eexists. split; [reflexivity |]. simpl.
      split; [discriminate |]. split; [reflexivity |]. apply Hin.
  - intros _. exists w1. split; [reflexivity | exact Hres].
Qed.

(** C5 (amended).  Under the CORS options of server.js and of the variant
    that reads the allowed origins from the environment: a request whose
    Origin header is absent, empty, or a member of the allowed origins passes
    the origin function, and its response carries
    Access-Control-Allow-Credentials: true and
    Access-Control-Expose-Headers: Authorization; for every other origin the
    stage hands the error 'CORS Policy Blocks This Request' to [next] and
    writes nothing. *)
Theorem origin_policy_holds (env : gmap string string) (req : Request) (w : World) :
  origin_policy (absent_empty_or_listed default_origins) Server.cors_options req w /\
  origin_policy (absent_empty_or_listed (Env.allowedOrigins env)) (Env.cors_options env) req w.
Proof.
  split; apply cors_policy; try reflexivity; apply originCallback_decides.
Qed.

Lemma origin_policy_holds_witness :
  (exists sg w', cors Server.cors_options (get "/api/user" front_origin 0) idle = (sg, w') /\
     (forall e, sg <> NextErr e) /\
     (method (get "/api/user" front_origin 0) <> "OPTIONS" -> sg = Next) /\
     ("Access-Control-Allow-Credentials", "true") ∈ headers (res w') /\
     ("Access-Control-Expose-Headers", "Authorization") ∈ headers (res w')) /\
  (exists w', cors Server.cors_options (get "/api/user" evil_origin 0) idle
              = (NextErr (new_Error msg_cors_blocked), w') /\ res w' = res idle).
Proof.
  split.
  - apply (proj1 (proj1 (origin_policy_holds ∅ (get "/api/user" front_origin 0) idle))).
    right. right. exists "http://localhost:5173". split; [reflexivity | set_solver].
  - apply (proj2 (proj1 (origin_policy_holds ∅ (get "/api/user" evil_origin 0) idle))).
    intros [H | [H | (s & H & Hs)]]; try discriminate.
    injection H as <-. apply includes_spec in Hs. discriminate.
Defined.

(** C5 as stated fails: an Origin header that is present but empty is
    neither absent nor allow-listed, yet [!origin] lets it pass. *)
Lemma empty_origin_passes :
  ~ origin_policy (absent_or_listed default_origins) Server.cors_options
      (get "/api/user" (Some "") 0) idle.
Proof.
  intros [_ Hdeny]. destruct Hdeny as (w' & Hrun & _).
  - intros [H | (s & H & Hs)]; [discriminate |].
    injection H as <-. apply includes_spec in Hs. discriminate.
  - vm_compute in Hrun. discriminate.
Qed.

(** ** Dispatch lemmas *)

Lemma dispatch_through (l1 l2 : list Layer) (req : Request) :
  forall w w1, through l1 req w = Some w1 ->
    dispatch (l1 ++ l2) None req w = dispatch l2 None req w1.
Proof.
  induction l1 as [| l l1 IH]; intros w w1 H; simpl in *.
  - injection H as ->. reflexivity.
  - destruct (mount_matches (mount l) (path req)); [| apply IH; exact H].
    destruct (handle l) as [f | f]; [| apply IH; exact H].
    destruct (f req w) as [[| e |] w']; try discriminate.
    apply IH; exact H.
Qed.

(** A pending error passes over the ordinary layers. *)
Lemma dispatch_error_skips (l1 l2 : list Layer) (e : ErrObj) (req : Request) (w : World) :
  Forall ordinary l1 ->
  dispatch (l1 ++ l2) (Some e) req w = dispatch l2 (Some e) req w.
Proof.
  induction 1 as [| l l1 Hl _ IH]; simpl; [reflexivity |].
  unfold ordinary in Hl. destruct (handle l); [| contradiction].
  destruct (mount_matches (mount l) (path req)); exact IH.
Qed.

(** A request passes over the layers whose mount does not match. *)
Lemma through_unmatched (l1 : list Layer) (req : Request) (w : World) :
  (forall l, l ∈ l1 -> mount_matches (mount l) (path req) = false) ->
  through l1 req w = Some w.
Proof.
  induction l1 as [| l l1 IH]; intros H; simpl; [reflexivity |].
  rewrite (H l); [| left]. apply IH. intros l' Hl'. apply H. right. exact Hl'.
Qed.

Lemma through_app (l1 l2 : list Layer) (req : Request) :
  forall w w1 w2, through l1 req w = Some w1 -> through l2 req w1 = Some w2 ->
    through (l1 ++ l2) req w = Some w2.
Proof.
  induction l1 as [| l l1 IH]; intros w w1 w2 H1 H2; simpl in *.
  - injection H1 as ->. exact H2.
  - destruct (mount_matches (mount l) (path req)); [| eapply IH; eassumption].
    destruct (handle l) as [f | f]; [| eapply IH; eassumption].
    destruct (f req w) as [[| e |] w']; try discriminate.
    eapply IH; eassumption.
Qed.

Lemma dispatch_unmatched (l1 l2 : list Layer) (l : Layer) (req : Request) :
  mount_matches (mount l) (path req) = false ->
  forall pending w,
    dispatch (l1 ++ l :: l2) pending req w = dispatch (l1 ++ l2) pending req w.
Proof.
  intros Hm. induction l1 as [| l' l1 IH]; intros pending w; simpl.
  - rewrite Hm. reflexivity.
  - destruct (mount_matches (mount l') (path req)); [| apply IH].
    destruct (handle l') as [f | f], pending as [e |]; try apply IH.
    + destruct (f req w) as [[| e' |] w']; [apply IH | apply IH | reflexivity].
    + destruct (f e req w) as [[| e' |] w']; [apply IH | apply IH | reflexivity].
Qed.

(** ** C7 *)

Lemma routes_ordinary (x : Externals) : Forall ordinary (routes x).
Proof. unfold routes. repeat constructor. Qed.

Lemma statics_ordinary (x : Externals) : Forall ordinary (statics x).
Proof. unfold statics. repeat constructor. Qed.

(** C7.  In server.js, when a request has come past the layers mounted
    before the CORS stage and its origin is refused, the CORS stage writes no
    response itself but hands the error to [next]; the dispatch then skips
    every ordinary layer and ends in the error handler, which, the error
    having no [status], answers once with 500 and the error's message. *)
Theorem cors_denial_normalized (x : Externals) (env : gmap string string)
    (req : Request) (w w1 : World) :
  through (Server.security x env ++ [use_at "/api/" Server.limiter]) req w = Some w1 ->
  ~ absent_empty_or_listed default_origins (origin req) ->
  exists w2 w3,
    cors Server.cors_options req w1 = (NextErr (new_Error msg_cors_blocked), w2) /\
    res w2 = res w1 /\
    err_status (new_Error msg_cors_blocked) = JUndefined /\
    dispatch (Server.app x env) None req w = (Responded, w3) /\
    sent (res w3) = cors_denial_reply :: sent (res w1).
Proof.
  intros Hpre Hdeny.
  destruct (proj2 (cors_policy Server.cors_options default_origins req w1
                     (originCallback_decides default_origins) eq_refl eq_refl) Hdeny)
    as (w2 & Hcors & Hres).
  exists w2. eexists. split; [exact Hcors |]. split; [exact Hres |]. split; [reflexivity |].
  unfold Server.app.
  change (Server.security x env ++ use_at "/api/" Server.limiter :: Server.downstream x)%list
    with (Server.security x env ++ [use_at "/api/" Server.limiter] ++ Server.downstream x)%list.
  rewrite app_assoc, (dispatch_through _ _ req w w1 Hpre).
  unfold Server.downstream. cbn [dispatch use mount handle mount_matches String.eqb Ascii.eqb
                                   Bool.eqb].
  rewrite Hcors.
  rewrite (dispatch_error_skips (Server.parsers x)); [| unfold Server.parsers; repeat constructor].
  rewrite (dispatch_error_skips (statics x)); [| apply statics_ordinary].
  rewrite (dispatch_error_skips (routes x)); [| apply routes_ordinary].
  split; [reflexivity |]. simpl. rewrite Hres. reflexivity.
Qed.

Lemma cors_denial_normalized_witness :
  exists w3, dispatch (Server.app passive ∅) None (get "/api/user" evil_origin 0) idle
             = (Responded, w3) /\
             sent (res w3) = [cors_denial_reply].
Proof.
  destruct (cors_denial_normalized passive ∅ (get "/api/user" evil_origin 0) idle
              (snd (Server.limiter (get "/api/user" evil_origin 0) idle)))
    as (w2 & w3 & _ & _ & _ & Hd & Hs).
  - vm_compute. reflexivity.
  - intros [H | [H | (s & H & Hs)]]; try discriminate.
    injection H as <-. apply includes_spec in Hs. discriminate.
  - exists w3. split; [exact Hd | exact Hs].
Defined.

(** ** C8 *)

Lemma fallbacks_not_found (stack : list Layer) (h : Request -> Eff unit)
    (eh : ErrorMiddleware) (req : Request) (w w1 : World) (s : Sent) :
  through stack req w = Some w1 ->
  responds (h req) w1 s ->
  exists w2, dispatch (stack ++ [use_err eh; use (fun r => terminal (h r))]) None req w
             = (Responded, w2) /\
             sent (res w2) = s :: sent (res w1).
Proof.
  intros Hpre (w2 & Hrun & Hsent). exists w2.
  rewrite (dispatch_through _ _ req w w1 Hpre).
  cbn [dispatch use use_err mount handle mount_matches String.eqb Ascii.eqb Bool.eqb].
  unfold terminal. rewrite Hrun. split; [reflexivity | exact Hsent].
Qed.

(** C8 (amended).  The 404 handler is the last layer of the stack, after
    the route mounts and the error handler.  A request that every layer
    mounted before the two fallbacks passes on, with nothing written, ends in
    that handler, which answers once with status 404 and
    [{success: false, message}]: the not-found message in server.js, the same
    message followed by the requested URL in the second variant.  That is so
    for a request on the API whose routers all pass it on; when the path
    matches no route mount, it is enough that the layers mounted before the
    routes pass the request on. *)
Theorem not_found_fallback (x : Externals) (env : gmap string string)
    (req : Request) (w w1 : World) :
  sent (res w1) = [] ->
  (through (admission x env) req w = Some w1 ->
   exists w2, dispatch (Server.app x env) None req w = (Responded, w2) /\
              sent (res w2) = [not_found_reply]) /\
  (through (admission_env x env) req w = Some w1 ->
   exists w2, dispatch (Env.app x env) None req w = (Responded, w2) /\
              sent (res w2) = [not_found_echo_reply req]) /\
  ((forall l, l ∈ routes x -> mount_matches (mount l) (path req) = false) ->
   (through (Server.security x env ++ use_at "/api/" Server.limiter
               :: use (cors Server.cors_options) :: Server.parsers x ++ statics x) req w
    = Some w1 ->
    exists w2, dispatch (Server.app x env) None req w = (Responded, w2) /\
               sent (res w2) = [not_found_reply]) /\
   (through (Env.security x env ++ use_at "/api/" Env.limiter
               :: use (cors (Env.cors_options env)) :: Env.parsers x ++ statics x) req w
    = Some w1 ->
    exists w2, dispatch (Env.app x env) None req w = (Responded, w2) /\
               sent (res w2) = [not_found_echo_reply req])).
Proof.
  intros Hfresh.
  assert (Hs : through (admission x env) req w = Some w1 ->
               exists w2, dispatch (Server.app x env) None req w = (Responded, w2) /\
                          sent (res w2) = [not_found_reply]).
  { intros Hall.
    destruct (fallbacks_not_found _ notFound
                (fun err r => terminal (errorHandler err r)) req w w1 not_found_reply
                Hall) as (w2 & Hd & Hs).
    { eexists. split; reflexivity. }
    exists w2. rewrite <- Hfresh, <- Hs. split; [| reflexivity].
    rewrite <- Hd. unfold Server.app, admission, Server.downstream, Server.fallbacks.
    rewrite <- !app_assoc. reflexivity. }
  assert (He : through (admission_env x env) req w = Some w1 ->
               exists w2, dispatch (Env.app x env) None req w = (Responded, w2) /\
                          sent (res w2) = [not_found_echo_reply req]).
  { intros Hall.
    destruct (fallbacks_not_found _ notFound_echo
                (fun err r => terminal (errorHandler err r)) req w w1
                (not_found_echo_reply req) Hall) as (w2 & Hd & Hs').
    { eexists. split; reflexivity. }
    exists w2. rewrite <- Hfresh, <- Hs'. split; [| reflexivity].
    rewrite <- Hd. unfold Env.app, admission_env, Env.downstream, Env.fallbacks.
    rewrite <- !app_assoc. reflexivity. }
  split; [exact Hs |]. split; [exact He |].
  intros Hroutes. split; intros Hpre.
  - apply Hs.
    pose proof (through_app _ (routes x) req w w1 w1 Hpre
                  (through_unmatched _ req w1 Hroutes)) as Hall.
    rewrite <- Hall. unfold admission. rewrite <- !app_assoc. reflexivity.
  - apply He.
    pose proof (through_app _ (routes x) req w w1 w1 Hpre
                  (through_unmatched _ req w1 Hroutes)) as Hall.
    rewrite <- Hall. unfold admission_env. rewrite <- !app_assoc. reflexivity.
Qed.

Lemma not_found_fallback_witness :
  (exists w2, dispatch (Server.app passive ∅) None (get "/api/nothing" front_origin 0) idle
              = (Responded, w2) /\ sent (res w2) = [not_found_reply]) /\
  (exists w2, dispatch (Env.app passive ∅) None (get "/nowhere" None 0) idle
              = (Responded, w2) /\
              sent (res w2) = [not_found_echo_reply (get "/nowhere" None 0)]).
Proof.
  split.
  - destruct (not_found_fallback passive ∅ (get "/api/nothing" front_origin 0) idle
                (snd (cors Server.cors_options (get "/api/nothing" front_origin 0)
                           (snd (Server.limiter (get "/api/nothing" front_origin 0) idle))))
                eq_refl) as (Hs & _).
    apply Hs. vm_compute. reflexivity.
  - destruct (not_found_fallback passive ∅ (get "/nowhere" None 0) idle
                (snd (cors (Env.cors_options ∅) (get "/nowhere" None 0) idle))
                eq_refl) as (_ & _ & Hr).
    destruct Hr as (_ & He).
    + intros l Hl. unfold routes in Hl.
      repeat (apply elem_of_cons in Hl as [-> | Hl]; [reflexivity |]).
      apply elem_of_nil in Hl. contradiction.
    + apply He. vm_compute. reflexivity.
Defined.

(** C8 as worded fails: a path that matches no route mount does not by
    itself lead to the 404 handler.  With a refused origin the request is
    answered with 500 by the error handler, and a preflight is answered with
    204 by the CORS stage. *)
Lemma not_found_needs_passage :
  ~ not_found_stated passive (Server.app passive ∅) (fun _ => not_found_reply) /\
  ~ not_found_stated passive (Env.app passive ∅) not_found_echo_reply /\
  sent (res (snd (dispatch (Server.app passive ∅) None (get "/nowhere" evil_origin 0) idle)))
  = [cors_denial_reply] /\
  sent (res (snd (dispatch (Server.app passive ∅) None (preflight "/nowhere") idle)))
  = [{| sent_status := JNum 204; sent_body := JUndefined |}].
Proof.
  assert (Hroutes : forall l, l ∈ routes passive ->
                              mount_matches (mount l) "/nowhere" = false).
  { intros l Hl. unfold routes in Hl.
    repeat (apply elem_of_cons in Hl as [-> | Hl]; [reflexivity |]).
    apply elem_of_nil in Hl. contradiction. }
  split; [| split; [| split]].
  - intros H. destruct (H (get "/nowhere" evil_origin 0) idle Hroutes) as (w2 & Hd & Hs).
    vm_compute in Hd. injection Hd as <-. vm_compute in Hs. discriminate.
  - intros H. destruct (H (preflight "/nowhere") idle Hroutes) as (w2 & Hd & Hs).
    vm_compute in Hd. injection Hd as <-. vm_compute in Hs. discriminate.
  - vm_compute. reflexivity.
  - vm_compute. reflexivity.
Qed.

(** ** C9 *)

Lemma ext_keeps_hits (m : string) (f : External) : keeps_hits (use_at m (ext f)).
Proof.
  unfold keeps_hits, use_at, ext. simpl. intros req w.
  destruct (f req (res w)) as [s r]. reflexivity.
Qed.

Lemma terminal_keeps_hits (h : Eff unit) :
  (forall w, hits (snd (h w)) = hits w) ->
  forall w, hits (snd (terminal h w)) = hits w.
Proof.
  intros Hh w. unfold terminal. specialize (Hh w).
  destruct (h w) as [[u | e] w']; exact Hh.
Qed.

Lemma normalize_keeps_hits (err : ErrObj) (w : World) :
  hits (snd (normalize err w)) = hits w.
Proof.
  unfold normalize.
  destruct (is_str (err_name err) "SequelizeValidationError");
    [| destruct (is_str (err_name err) "SequelizeUniqueConstraintError");
       [| destruct (is_str (err_name err) "JsonWebTokenError")]];
    unfold mbind, eff_bind, lift, res_status;
    try (destruct (errors_map (err_errors err))); try reflexivity;
    simpl; (etrans; [apply res_json_frame | reflexivity]).
Qed.

Lemma errorHandler_keeps_hits (err : ErrObj) (req : Request) (w : World) :
  hits (snd (errorHandler err req w)) = hits w /\
  hits (snd (errorHandler_detailed err req w)) = hits w.
Proof.
  split.
  - destruct (errorHandler_normalize err req w) as (w0 & _ & Hh & ->).
    rewrite normalize_keeps_hits. exact Hh.
  - destruct (errorHandler_detailed_normalize err req w) as (w0 & _ & Hh & ->).
    rewrite normalize_keeps_hits. exact Hh.
Qed.

Lemma cors_keeps_hits (o : CorsOptions) (allowed : list string) :
  decides (cors_origin o) allowed -> keeps_hits (use (cors o)).
Proof.
  intros Hcb. unfold keeps_hits, use. simpl. intros req w. unfold cors.
  destruct (Hcb (origin req) w) as (w1 & _ & Hh & ->).
  destruct (not_origin (origin req) || includes allowed (origin req)); simpl;
    [| exact Hh].
  destruct (String.eqb (method req) "OPTIONS"); simpl; exact Hh.
Qed.

Lemma fallbacks_keep_hits (h : Request -> Eff unit) :
  (forall req w, hits (snd (h req w)) = hits w) ->
  keeps_hits (use (fun req => terminal (h req))).
Proof.
  intros Hh. unfold keeps_hits, use. simpl. intros req w.
  apply terminal_keeps_hits. apply Hh.
Qed.

Lemma dispatch_keeps_hits (stack : list Layer) (req : Request) :
  Forall keeps_hits stack ->
  forall pending w, hits (snd (dispatch stack pending req w)) = hits w.
Proof.
  induction 1 as [| l stack Hl _ IH]; intros pending w; simpl; [reflexivity |].
  destruct (mount_matches (mount l) (path req)); [| apply IH].
  unfold keeps_hits in Hl.
  destruct (handle l) as [f | f], pending as [e |]; try apply IH.
  - specialize (Hl req w). destruct (f req w) as [[| e' |] w']; simpl in Hl;
      [rewrite IH | rewrite IH |]; exact Hl.
  - specialize (Hl e req w). destruct (f e req w) as [[| e' |] w']; simpl in Hl;
      [rewrite IH | rewrite IH |]; exact Hl.
Qed.

Lemma lower_slash (c : ascii) : Ascii.eqb "/" (lower c) = Ascii.eqb "/" c.
Proof. destruct c as [[] [] [] [] [] [] [] []]; reflexivity. Qed.

(** The mount path ['/api/'] in plain terms: the path is ["/api"], in any
    letter case, followed by nothing or by a ["/"]. *)
Lemma api_mount_matches (p : string) :
  mount_matches "/api/" p = true <->
  exists c0 c1 c2 c3 rest,
    p = String c0 (String c1 (String c2 (String c3 rest))) /\
    c0 = "/"%char /\ lower c1 = "a"%char /\ lower c2 = "p"%char /\ lower c3 = "i"%char /\
    (rest = "" \/ exists r, rest = String "/" r).
Proof.
  unfold mount_matches. cbn [String.eqb Ascii.eqb Bool.eqb loosen strip_prefix_ci].
  change (lower "/") with "/"%char. change (lower "a") with "a"%char.
  change (lower "p") with "p"%char. change (lower "i") with "i"%char.
  split.
  - destruct p as [| c0 [| c1 [| c2 [| c3 rest]]]]; try discriminate;
      rewrite lower_slash;
      destruct (Ascii.eqb_spec "/" c0) as [<- |]; try discriminate;
      destruct (Ascii.eqb_spec "a" (lower c1)) as [E1 |]; try discriminate;
      destruct (Ascii.eqb_spec "p" (lower c2)) as [E2 |]; try discriminate;
      destruct (Ascii.eqb_spec "i" (lower c3)) as [E3 |]; try discriminate.
    intros H. exists "/"%char, c1, c2, c3, rest. repeat split; try congruence.
    destruct rest as [| c r]; [left; reflexivity | right].
    apply Ascii.eqb_eq in H. subst c. eexists. reflexivity.
  - intros (c0 & c1 & c2 & c3 & rest & -> & -> & E1 & E2 & E3 & Hrest).
    rewrite E1, E2, E3. simpl.
    destruct Hrest as [-> | (r & ->)]; reflexivity.
Qed.

Lemma use_keeps_hits (f : External) : keeps_hits (use (ext f)).
Proof. apply (ext_keeps_hits "/"). Qed.

Lemma routes_keep_hits (x : Externals) : Forall keeps_hits (routes x).
Proof. unfold routes. repeat constructor; apply ext_keeps_hits. Qed.

Lemma statics_keep_hits (x : Externals) : Forall keeps_hits (statics x).
Proof. unfold statics. repeat constructor; apply ext_keeps_hits. Qed.

Lemma error_layer_keeps_hits :
  keeps_hits (use_err (fun err req => terminal (errorHandler err req))) /\
  keeps_hits (use_err (fun err req => terminal (errorHandler_detailed err req))).
Proof.
  split; unfold keeps_hits, use_err; simpl; intros e req w;
    apply terminal_keeps_hits; intros w0; apply errorHandler_keeps_hits.
Qed.

Lemma forceHttps_keeps_hits (x : Externals) (env : gmap string string) :
  keeps_hits (use (Https.forceHttps x env)).
Proof.
  unfold keeps_hits, use, Https.forceHttps. simpl. intros req w.
  destruct (_ && _); [| reflexivity].
  destruct (redirect x _ req (res w)) as [thrown r]. reflexivity.
Qed.

Lemma server_bare_keeps_hits (x : Externals) (env : gmap string string) :
  Forall keeps_hits (Server.security x env ++ Server.downstream x).
Proof.
  apply Forall_app. split; [repeat constructor; apply use_keeps_hits |].
  unfold Server.downstream. constructor.
  { apply (cors_keeps_hits _ default_origins), originCallback_decides. }
  apply Forall_app; split; [| apply Forall_app; split; [| apply Forall_app; split]].
  - repeat constructor; apply use_keeps_hits.
  - apply statics_keep_hits.
  - apply routes_keep_hits.
  - constructor; [apply error_layer_keeps_hits |].
    constructor; [| constructor].
    apply fallbacks_keep_hits. intros req w. reflexivity.
Qed.

Lemma https_bare_keeps_hits (x : Externals) (env : gmap string string) :
  Forall keeps_hits (Https.security x env ++ Https.downstream x).
Proof.
  apply Forall_app. split.
  { repeat constructor; try apply use_keeps_hits. apply forceHttps_keeps_hits. }
  unfold Https.downstream. constructor.
  { apply (cors_keeps_hits _ Https.allowedOrigins), originCallback_quiet_decides. }
  apply Forall_app; split; [| apply Forall_app; split; [| apply Forall_app; split]].
  - repeat constructor; apply use_keeps_hits.
  - apply statics_keep_hits.
  - apply routes_keep_hits.
  - constructor; [apply error_layer_keeps_hits |].
    constructor; [| constructor].
    apply fallbacks_keep_hits. intros req w. reflexivity.
Qed.

Lemma env_bare_keeps_hits (x : Externals) (env : gmap string string) :
  Forall keeps_hits (Env.security x env ++ Env.downstream x env).
Proof.
  apply Forall_app. split; [repeat constructor; apply use_keeps_hits |].
  unfold Env.downstream. constructor.
  { apply (cors_keeps_hits _ (Env.allowedOrigins env)), originCallback_decides. }
  apply Forall_app; split; [| apply Forall_app; split; [| apply Forall_app; split]].
  - repeat constructor; apply use_keeps_hits.
  - apply statics_keep_hits.
  - apply routes_keep_hits.
  - constructor; [apply error_layer_keeps_hits |].
    constructor; [| constructor].
    apply fallbacks_keep_hits. intros req w. reflexivity.
Qed.

Lemma frame_of_bare (m : string) (f : Middleware) (l1 l2 : list Layer) :
  Forall keeps_hits (l1 ++ l2) ->
  limiter_frame (fun p => mount_matches m p = false) (l1 ++ use_at m f :: l2) (l1 ++ l2).
Proof.
  intros Hbare req w Hout.
  assert (Heq : dispatch (l1 ++ use_at m f :: l2) None req w
                = dispatch (l1 ++ l2) None req w).
  { apply dispatch_unmatched. exact Hout. }
  split; [exact Heq |]. rewrite Heq. apply dispatch_keeps_hits. exact Hbare.
Qed.

(** C9 (amended).  In the three files the limiter is mounted at ['/api/']
    only.  For every request whose path the mount path does not match (it is
    not ["/api"], in any letter case, followed by nothing or by a ["/"]) the
    stack behaves as the stack without the limiter layer and the counter
    table is left unchanged, whatever it holds. *)
Theorem limiter_mount_frame (x : Externals) (env : gmap string string) :
  limiter_frame not_on_api_mount (Server.app x env)
                (Server.security x env ++ Server.downstream x) /\
  limiter_frame not_on_api_mount (Https.app x env)
                (Https.security x env ++ Https.downstream x) /\
  limiter_frame not_on_api_mount (Env.app x env)
                (Env.security x env ++ Env.downstream x env).
Proof.
  split; [| split]; apply frame_of_bare.
  - apply server_bare_keeps_hits.
  - apply https_bare_keeps_hits.
  - apply env_bare_keeps_hits.
Qed.

Lemma limiter_mount_frame_witness :
  dispatch (Server.app passive ∅) None (get "/uploads/poster.png" None 0) busy
  = dispatch (Server.security passive ∅ ++ Server.downstream passive) None
             (get "/uploads/poster.png" None 0) busy /\
  hits (snd (dispatch (Server.app passive ∅) None (get "/uploads/poster.png" None 0) busy))
  = at_limit.
Proof.
  apply (proj1 (limiter_mount_frame passive ∅) (get "/uploads/poster.png" None 0) busy).
  reflexivity.
Defined.

(** C9 as stated fails: ["/API/user"] does not begin with ['/api/'], but
    the mount path matches without regard to case, so the limiter counts the
    request. *)
Lemma limiter_counts_outside_prefix :
  ~ limiter_frame not_under_api_prefix (Server.app passive ∅)
      (Server.security passive ∅ ++ Server.downstream passive).
Proof.
  intros H. destruct (H (get "/API/user" None 0) idle eq_refl) as [_ Hh].
  vm_compute in Hh. discriminate.
Qed.

(** ** C10 *)

Lemma cookie_secret_nonempty (env : gmap string string) :
  exists s, COOKIE_SECRET env = JStr s /\ s <> "".
Proof.
  unfold COOKIE_SECRET, js_or. destruct (getenv env "COOKIE_SECRET") as [s |]; simpl.
  - destruct (String.eqb_spec s "") as [-> | Hne]; simpl.
    + exists fallback_secret. split; [reflexivity | discriminate].
    + exists s. split; [reflexivity | exact Hne].
  - exists fallback_secret. split; [reflexivity | discriminate].
Qed.

(** C10.  When COOKIE_SECRET is not in the environment, the secret is the
    literal 'your-secret-key-123', the first layer of the stack is the cookie
    parser initialised with it, and starting the server does not exit on that
    account: when the [try] block of [startServer] succeeds the server
    listens, and it exits only when that block fails.  Whatever the
    environment, the secret is a non-empty string.  (server.js and the first
    variant.) *)
Theorem cookie_secret_fallback (x : Externals) (env : gmap string string) (database_ok : bool) :
  getenv env "COOKIE_SECRET" = None ->
  COOKIE_SECRET env = JStr "your-secret-key-123" /\
  head (Server.app x env) = Some (use (ext (cookieParser x (JStr "your-secret-key-123")))) /\
  head (Https.app x env) = Some (use (ext (cookieParser x (JStr "your-secret-key-123")))) /\
  (exists port, Server.startServer env true = Listening port (JStr "your-secret-key-123")) /\
  (exists port, Https.startServer env true = Listening port (JStr "your-secret-key-123")) /\
  (forall code, Server.startServer env database_ok = Exit code -> database_ok = false) /\
  (forall code, Https.startServer env database_ok = Exit code -> database_ok = false) /\
  (forall env', exists s, COOKIE_SECRET env' = JStr s /\ s <> "").
Proof.
  intros Habsent.
  assert (Hsecret : COOKIE_SECRET env = JStr "your-secret-key-123").
  { unfold COOKIE_SECRET. rewrite Habsent. reflexivity. }
  split; [exact Hsecret |].
  split; [simpl; rewrite Hsecret; reflexivity |].
  split; [simpl; rewrite Hsecret; reflexivity |].
  split; [eexists; simpl; rewrite Hsecret; reflexivity |].
  split; [eexists; simpl; rewrite Hsecret; reflexivity |].
  split; [intros code; destruct database_ok; [discriminate | reflexivity] |].
  split; [intros code; destruct database_ok; [discriminate | reflexivity] |].
  apply cookie_secret_nonempty.
Qed.

Lemma cookie_secret_fallback_witness :
  COOKIE_SECRET port_only = JStr "your-secret-key-123" /\
  Server.startServer port_only true
  = Listening (JStr "8080") (JStr "your-secret-key-123").
Proof.
  destruct (cookie_secret_fallback passive port_only true eq_refl)
    as (Hs & _ & _ & (port & Hp) & _).
  split; [exact Hs |]. rewrite Hp. vm_compute in Hp. injection Hp as <-. reflexivity.
Defined.

(** ** Scenarios *)

(** What the mount path ['/api/'] matches. *)
Example api_mount_examples :
  mount_matches "/api/" "/api/user/7" = true /\
  mount_matches "/api/" "/api/" = true /\
  mount_matches "/api/" "/api" = true /\
  mount_matches "/api/" "/Api/user" = true /\
  mount_matches "/api/" "/apiary" = false /\
  mount_matches "/api/" "/uploads/poster.png" = false /\
  mount_matches "/uploads" "/uploadsfile/a.pdf" = false.
Proof. repeat split. Qed.

(** [GET /api/unknown] with no Origin header, when no router answers: the hit
    is counted and the 404 handler replies. *)
Example unknown_api_route :
  fst (dispatch (Server.app passive ∅) None (get "/api/unknown" None 0) idle) = Responded /\
  sent (res (snd (dispatch (Server.app passive ∅) None (get "/api/unknown" None 0) idle)))
  = [{| sent_status := JNum 404; sent_body := envelope (JStr msg_not_found) |}] /\
  hits (snd (dispatch (Server.app passive ∅) None (get "/api/unknown" None 0) idle))
    !! client = Some {| count := 1; resetTime := 6000000 |}.
Proof. vm_compute. repeat split. Qed.

(** The 1201st request of one address inside the window of server.js is
    answered by the limiter and reaches no later layer. *)
Example request_1201 :
  fst (dispatch (Server.app passive ∅) None (get "/api/user" None 5000) busy) = Responded /\
  sent (res (snd (dispatch (Server.app passive ∅) None (get "/api/user" None 5000) busy)))
  = [{| sent_status := JNum 429; sent_body := message Server.limiter_options |}].
Proof. vm_compute. repeat split. Qed.

(** What Node makes of a status when it writes the head: 1000 and [true]
    are refused, [2^32 + 404] wraps to 404, a numeric string or a one-element
    array counts as its number, a fraction is cut off after rounding to a
    double. *)
Example status_codes :
  wire_status (JNum 404) = Some 404 /\
  wire_status (JNum 1000) = None /\
  wire_status (JNum 99) = None /\
  wire_status (JNum (-404)) = None /\
  wire_status (JNum (2 ^ 32 + 404)) = Some 404 /\
  wire_status (JBool true) = None /\
  wire_status (JStr "404") = Some 404 /\
  wire_status (JStr " 0x194 ") = Some 404 /\
  wire_status (JStr "4.04e2") = Some 404 /\
  wire_status (JStr "404.9") = Some 404 /\
  wire_status (JStr "999.99999999999999999") = None /\
  wire_status (JStr "not found") = None /\
  wire_status (JArr [JStr "404"]) = Some 404 /\
  wire_status (JArr [JNum 4; JNum 4]) = None /\
  wire_status (JObj [("code", JNum 404)]) = None.
Proof. vm_compute. repeat split. Qed.

(** An error whose status Node refuses: the handler logs, sets the status,
    and throws from [res.json] with nothing written. *)
Example status_out_of_range :
  errorHandler (status_error (JNum 1000) "out of range") (get "/api/user" None 0) idle
  = (Throw (InvalidStatusCode (JNum 1000)),
     {| res := {| statusCode := JNum 1000; headers := []; sent := [] |};
        hits := ∅;
        console := [[JStr "Stack:"; JStr "Error: out of range"];
                    [JStr "Error:"; JStr "out of range"]] |}) /\
  err_message (exn_obj (InvalidStatusCode (JNum 1000))) = JStr "Invalid status code: 1000".
Proof. vm_compute. repeat split. Qed.

(** Which values of PORT [server.listen] takes. *)
Example ports :
  listen_accepts "8080" = true /\
  listen_accepts "0" = true /\
  listen_accepts "65535" = true /\
  listen_accepts "65536" = false /\
  listen_accepts "70000" = false /\
  listen_accepts "80.5" = false /\
  listen_accepts " " = false /\
  listen_accepts "Infinity" = false /\
  listen_accepts "0x1F90" = true /\
  listen_accepts "-1" = true /\
  listen_accepts "/tmp/app.sock" = true.
Proof. vm_compute. repeat split. Qed.

(** A refused origin on a path outside the API: the error handler answers
    with 500 and the limiter's table stays empty. *)
Example refused_origin :
  fst (dispatch (Server.app passive ∅) None (get "/uploads/poster.png" evil_origin 0) idle)
  = Responded /\
  sent (res (snd (dispatch (Server.app passive ∅) None
                           (get "/uploads/poster.png" evil_origin 0) idle)))
  = [cors_denial_reply] /\
  hits (snd (dispatch (Server.app passive ∅) None
                      (get "/uploads/poster.png" evil_origin 0) idle)) = ∅.
Proof. vm_compute. repeat split. Qed.

(** * Further properties of the files *)

(** ** The allowed origins read from the environment *)

Lemma split_nonempty (sep : ascii) (s : string) : split sep s <> [].
Proof.
  destruct s as [| c s]; simpl; [discriminate |].
  destruct (Ascii.eqb c sep); [discriminate |].
  destruct (split sep s); discriminate.
Qed.

Lemma concat_cons_char (sep : string) (c : ascii) (h : string) (t : list string) :
  String.concat sep (String c h :: t) = String c (String.concat sep (h :: t)).
Proof. destruct t; reflexivity. Qed.

Lemma split_concat (sep : ascii) (s : string) :
  String.concat (String sep EmptyString) (split sep s) = s.
Proof.
  induction s as [| c s IH]; simpl; [reflexivity |].
  pose proof (split_nonempty sep s) as Hn.
  destruct (Ascii.eqb_spec c sep) as [-> | Hne].
  - destruct (split sep s) as [| h t]; [contradiction |].
    simpl in *. rewrite IH. reflexivity.
  - destruct (split sep s) as [| h t]; [contradiction |].
    rewrite concat_cons_char, IH. reflexivity.
Qed.

(** Joining the pieces with the separator gives the string back, each piece
    is free of the separator, and there is one piece more than there are
    separators: [split] neither trims nor drops anything. *)
Theorem split_faithful (sep : ascii) (s : string) :
  String.concat (String sep EmptyString) (split sep s) = s /\
  Forall (fun piece => occurrences sep piece = 0%nat) (split sep s) /\
  length (split sep s) = S (occurrences sep s).
Proof.
  split; [apply split_concat |].
  induction s as [| c s (IHf & IHl)]; simpl.
  - split; [repeat constructor | reflexivity].
  - destruct (Ascii.eqb_spec c sep) as [-> | Hne].
    + split; [constructor; [reflexivity | exact IHf] |].
      simpl. rewrite IHl. reflexivity.
    + pose proof (split_nonempty sep s) as Hn.
      destruct (split sep s) as [| h t]; [contradiction |].
      split; [| simpl in *; exact IHl].
      inversion IHf as [| ? ? Hh Ht]; subst. constructor; [| exact Ht].
      simpl. destruct (Ascii.eqb_spec c sep); [contradiction | exact Hh].
Qed.

(** When ALLOWED_ORIGINS is a non-empty string, the allowed origins of the
    second variant are its comma-separated pieces, taken verbatim: the CORS
    stage grants an absent or empty origin and those pieces, and refuses
    every other origin, the two built-in ones included. *)
Theorem env_origins_override (env : gmap string string) (s : string)
    (req : Request) (w : World) :
  getenv env "ALLOWED_ORIGINS" = Some s -> s <> "" ->
  Env.allowedOrigins env = split "," s /\
  String.concat "," (Env.allowedOrigins env) = s /\
  origin_policy (absent_empty_or_listed (split "," s)) (Env.cors_options env) req w /\
  (forall o, origin req = Some o -> o <> "" -> o ∉ split "," s ->
     exists w', cors (Env.cors_options env) req w
                = (NextErr (new_Error msg_cors_blocked), w') /\ res w' = res w).
Proof.
  intros Hs Hne.
  assert (Hall : Env.allowedOrigins env = split "," s).
  { unfold Env.allowedOrigins. rewrite Hs.
    destruct (String.eqb_spec s ""); [contradiction | reflexivity]. }
  assert (Hpol : origin_policy (absent_empty_or_listed (split "," s))
                               (Env.cors_options env) req w).
  { rewrite <- Hall. apply cors_policy; try reflexivity. apply originCallback_decides. }
  split; [exact Hall |]. split; [rewrite Hall; apply split_concat |].
  split; [exact Hpol |].
  intros o Ho Hoe Hnot. apply (proj2 Hpol).
  intros [H | [H | (o' & H & Hin)]]; rewrite Ho in H; try discriminate.
  - injection H as ->. contradiction.
  - injection H as ->. contradiction.
Qed.

Lemma env_origins_override_witness :
  Env.allowedOrigins listed_env = ["https://a.example"; " https://b.example"] /\
  (exists w', cors (Env.cors_options listed_env) (get "/api/user" front_origin 0) idle
              = (NextErr (new_Error msg_cors_blocked), w') /\ res w' = res idle) /\
  (exists w', cors (Env.cors_options listed_env)
                   (get "/api/user" (Some "https://b.example") 0) idle
              = (NextErr (new_Error msg_cors_blocked), w') /\ res w' = res idle).
Proof.
  assert (Hne : "https://a.example, https://b.example" <> "") by discriminate.
  split; [| split].
  - rewrite (proj1 (env_origins_override listed_env _ (get "/api/user" None 0) idle
                      eq_refl Hne)).
    reflexivity.
  - apply (proj2 (proj2 (proj2 (env_origins_override listed_env _
                                  (get "/api/user" front_origin 0) idle eq_refl Hne)))
             "http://localhost:5173" eq_refl); [discriminate |].
    intros Hin. apply includes_spec in Hin. discriminate.
  - apply (proj2 (proj2 (proj2 (env_origins_override listed_env _
                                  (get "/api/user" (Some "https://b.example") 0) idle
                                  eq_refl Hne)))
             "https://b.example" eq_refl); [discriminate |].
    intros Hin. apply includes_spec in Hin. discriminate.
Defined.

(** ** The start of the process *)

Lemma env_missing_spec (env : gmap string string) (k : string) :
  Env.env_missing env k = false <-> exists v, getenv env k = Some v /\ v <> "".
Proof.
  unfold Env.env_missing. destruct (getenv env k) as [v |]; simpl.
  - destruct (String.eqb_spec v ""); simpl; split; try discriminate.
    + intros (v' & Hv & Hne). congruence.
    + intros _. eauto.
    + reflexivity.
  - split; [discriminate | intros (v & Hv & _); discriminate].
Qed.

(** The second variant listens exactly when DB_HOST, DB_USER, DB_PASSWORD,
    DB_NAME and PORT are all set to non-empty strings and the [try] block
    succeeds; the port is then the PORT variable, so the fallback 5001 of
    [process.env.PORT || 5001] is never used.  In every other case the
    process exits with 1. *)
Theorem env_startup (env : gmap string string) (database_ok : bool) :
  ((exists port secret, Env.startServer env database_ok = Listening port secret) <->
   database_ok = true /\
   forall k, k ∈ Env.required_env -> exists v, getenv env k = Some v /\ v <> "") /\
  (forall port secret, Env.startServer env database_ok = Listening port secret ->
   secret = COOKIE_SECRET env /\
   exists v, getenv env "PORT" = Some v /\ v <> "" /\ port = JStr v) /\
  (forall code, Env.startServer env database_ok = Exit code -> code = 1).
Proof.
  unfold Env.startServer.
  destruct (existsb (Env.env_missing env) Env.required_env) eqn:E.
  - apply existsb_exists in E as (k & Hk & Hmiss).
    split; [| split].
    + split; [intros (p & s & H); discriminate |].
      intros (_ & Hall). destruct (Hall k) as (v & Hv & Hne).
      { apply list_elem_of_In. exact Hk. }
      assert (Env.env_missing env k = false) by (apply env_missing_spec; eauto).
      congruence.
    + intros p s H. discriminate.
    + intros code H. injection H as <-. reflexivity.
  - assert (Hall : forall k, k ∈ Env.required_env ->
                             exists v, getenv env k = Some v /\ v <> "").
    { intros k Hk. apply env_missing_spec.
      destruct (Env.env_missing env k) eqn:Ek; [| reflexivity].
      assert (existsb (Env.env_missing env) Env.required_env = true).
      { apply existsb_exists. exists k. split; [apply list_elem_of_In, Hk | exact Ek]. }
      congruence. }
    destruct (Hall "PORT") as (v & Hv & Hne).
    { apply list_elem_of_In. simpl. tauto. }
    split; [| split].
    + split.
      * intros (p & s & H). destruct database_ok; [| discriminate]. split; [reflexivity | exact Hall].
      * intros (-> & _). eauto.
    + intros p s H. destruct database_ok; [| discriminate]. injection H as <- <-.
      split; [reflexivity |]. exists v. split; [exact Hv |]. split; [exact Hne |].
      rewrite Hv. unfold js_or. simpl.
      destruct (String.eqb_spec v ""); [contradiction | reflexivity].
    + intros code H. destruct database_ok; [discriminate |]. injection H as <-. reflexivity.
Qed.

Lemma env_startup_witness :
  exists port secret, Env.startServer full_env true = Listening port secret.
Proof.
  apply (proj1 (env_startup full_env true)). split; [reflexivity |].
  intros k Hk. unfold Env.required_env in Hk.
  repeat (apply elem_of_cons in Hk as [-> | Hk];
          [eexists; split; [reflexivity | discriminate] |]).
  apply elem_of_nil in Hk. contradiction.
Defined.

Lemma ensure_dir_spec (dirname : string) (umask : Z) (fs : gmap string Entry) (dir : string) :
  ensure_dir dirname umask fs dir = Some (ensured umask fs (path_join dirname dir)).
Proof.
  unfold ensure_dir, existsSync, mkdirSync, ensured.
  destruct (fs !! path_join dirname dir) as [e |] eqn:E.
  - rewrite bool_decide_eq_true_2; [reflexivity | eauto].
  - rewrite bool_decide_eq_false_2; [reflexivity |]. intros [e He]. discriminate.
Qed.

Lemma setup_run (dirname : string) (umask : Z) (fs : gmap string Entry) :
  setupUploadDirectories dirname umask fs
  = Some (ensured umask (ensured umask fs (path_join dirname "uploads"))
                  (path_join dirname "uploadsfile")).
Proof.
  unfold setupUploadDirectories. rewrite ensure_dir_spec.
  unfold mbind, option_bind. apply ensure_dir_spec.
Qed.

Lemma ensured_exists (umask : Z) (m : gmap string Entry) (q : string) :
  is_Some (ensured umask m q !! q).
Proof.
  unfold ensured. destruct (m !! q) as [e |] eqn:E; [rewrite E; eauto |].
  rewrite lookup_insert_eq. eauto.
Qed.

Lemma ensured_keeps (umask : Z) (m : gmap string Entry) (q p : string) (e : Entry) :
  m !! p = Some e -> ensured umask m q !! p = Some e.
Proof.
  intros Hp. unfold ensured. destruct (m !! q) as [e' |] eqn:E; [exact Hp |].
  rewrite lookup_insert_ne; [exact Hp | congruence].
Qed.

Lemma ensured_adds (umask : Z) (m : gmap string Entry) (q p : string) :
  m !! p = None -> is_Some (ensured umask m q !! p) ->
  p = q /\ ensured umask m q !! p = Some (Dir (Z.ldiff 493 umask)).
Proof.
  unfold ensured. intros Hp Hs. destruct (m !! q) as [e |] eqn:E.
  - rewrite Hp in Hs. destruct Hs as [? ?]. discriminate.
  - destruct (decide (q = p)) as [-> | Hqp].
    + split; [reflexivity | apply lookup_insert_eq].
    + rewrite lookup_insert_ne in Hs by exact Hqp. rewrite Hp in Hs.
      destruct Hs as [? ?]. discriminate.
Qed.

Lemma ensured_again (umask : Z) (m : gmap string Entry) (q : string) :
  is_Some (m !! q) -> ensured umask m q = m.
Proof. intros [e He]. unfold ensured. rewrite He. reflexivity. Qed.

(** [setupUploadDirectories] never runs into EEXIST; afterwards both paths
    exist; whatever existed before (a directory with other permission bits,
    or a regular file of that name) is left exactly as it was; the only
    entries it adds are the two directories, with mode 0755 cut by the
    umask; and a second run changes nothing. *)
Theorem setup_upload_directories (dirname : string) (umask : Z) (fs : gmap string Entry) :
  exists fs', setupUploadDirectories dirname umask fs = Some fs' /\
    is_Some (fs' !! path_join dirname "uploads") /\
    is_Some (fs' !! path_join dirname "uploadsfile") /\
    (forall p e, fs !! p = Some e -> fs' !! p = Some e) /\
    (forall p, fs !! p = None -> is_Some (fs' !! p) ->
       (p = path_join dirname "uploads" \/ p = path_join dirname "uploadsfile") /\
       fs' !! p = Some (Dir (Z.ldiff 493 umask))) /\
    setupUploadDirectories dirname umask fs' = Some fs'.
Proof.
  set (p1 := path_join dirname "uploads"). set (p2 := path_join dirname "uploadsfile").
  exists (ensured umask (ensured umask fs p1) p2).
  pose proof (ensured_exists umask fs p1) as [e1 He1].
  pose proof (ensured_exists umask (ensured umask fs p1) p2) as H2.
  pose proof (ensured_keeps umask (ensured umask fs p1) p2 p1 e1 He1) as H1.
  split; [apply setup_run |].
  split; [rewrite H1; eauto |].
  split; [exact H2 |].
  split; [intros p e Hp; apply ensured_keeps, ensured_keeps, Hp |].
  split.
  - intros p Hp Hs. destruct (ensured umask fs p1 !! p) as [e |] eqn:E1.
    + destruct (ensured_adds umask fs p1 p Hp) as [-> He]; [rewrite E1; eauto |].
      split; [left; reflexivity |]. apply ensured_keeps. exact He.
    + destruct (ensured_adds umask _ p2 p E1 Hs) as [-> He].
      split; [right; reflexivity | exact He].
  - rewrite setup_run. fold p1 p2. f_equal.
    rewrite (ensured_again umask _ p1); [apply ensured_again; exact H2 |].
    rewrite H1. eauto.
Qed.

(** server.js touches the file system only after [authenticate] and [sync]
    have both resolved: then both upload directories exist, everything else
    being kept, and [server.listen] is called.  The process listens if
    [listen] takes the port and exits with 1, the directories made, if it
    throws.  If [authenticate] or [sync] rejects, the process exits with 1,
    the file system is as it was, and the rejection is logged under the one
    label of the [catch] block.  The outcome is that of
    [Server.startServer], the [try] block having run through. *)
Theorem start_sequence (env : gmap string string) (authenticate sync : option JsVal)
    (dirname : string) (umask : Z) (fs : gmap string Entry) :
  (authenticate = None /\ sync = None ->
   exists fs',
     is_Some (fs' !! path_join dirname "uploads") /\
     is_Some (fs' !! path_join dirname "uploadsfile") /\
     (forall p e, fs !! p = Some e -> fs' !! p = Some e) /\
     (port_accepted env = true ->
      exists log,
        startServer_steps env authenticate sync dirname umask fs
        = (Listening (js_or (str_val (getenv env "PORT")) (JNum 5001)) (COOKIE_SECRET env),
           fs', log)) /\
     (port_accepted env = false ->
      exists error log,
        startServer_steps env authenticate sync dirname umask fs
        = (Exit 1, fs', [JStr "ไม่สามารถเชื่อมต่อฐานข้อมูล:"; error] :: log))) /\
  (forall error, authenticate = Some error \/ (authenticate = None /\ sync = Some error) ->
   exists log,
     startServer_steps env authenticate sync dirname umask fs
     = (Exit 1, fs, [JStr "ไม่สามารถเชื่อมต่อฐานข้อมูล:"; error] :: log)) /\
  fst (fst (startServer_steps env authenticate sync dirname umask fs))
  = Server.startServer env
      (bool_decide (authenticate = None /\ sync = None) && port_accepted env).
Proof.
  pose proof (setup_run dirname umask fs) as Hrun.
  split; [| split].
  - intros [-> ->]. unfold startServer_steps. rewrite Hrun.
    exists (ensured umask (ensured umask fs (path_join dirname "uploads"))
                    (path_join dirname "uploadsfile")).
    pose proof (ensured_exists umask fs (path_join dirname "uploads")) as [e1 He1].
    split; [rewrite (ensured_keeps _ _ _ _ _ He1); eauto |].
    split; [apply ensured_exists |].
    split; [intros p e Hp; apply ensured_keeps, ensured_keeps, Hp |].
    split; intros ->; repeat eexists.
  - intros error [-> | [-> ->]]; unfold startServer_steps; eexists; reflexivity.
  - unfold startServer_steps, Server.startServer.
    destruct authenticate as [e |]; [rewrite bool_decide_eq_false_2; [reflexivity |];
                                     intros [H _]; discriminate |].
    destruct sync as [e |]; [rewrite bool_decide_eq_false_2; [reflexivity |];
                             intros [_ H]; discriminate |].
    rewrite Hrun, bool_decide_eq_true_2 by auto.
    destruct (port_accepted env); reflexivity.
Qed.

Lemma start_sequence_witness :
  (exists fs',
     is_Some (fs' !! path_join "/srv/app" "uploads") /\
     is_Some (fs' !! path_join "/srv/app" "uploadsfile") /\
     (forall p e, some_fs !! p = Some e -> fs' !! p = Some e) /\
     (port_accepted port_only = true ->
      exists log,
        startServer_steps port_only None None "/srv/app" 18 some_fs
        = (Listening (js_or (str_val (getenv port_only "PORT")) (JNum 5001))
                     (COOKIE_SECRET port_only), fs', log)) /\
     (port_accepted port_only = false ->
      exists error log,
        startServer_steps port_only None None "/srv/app" 18 some_fs
        = (Exit 1, fs', [JStr "ไม่สามารถเชื่อมต่อฐานข้อมูล:"; error] :: log))) /\
  (exists log,
     startServer_steps port_only None (Some (JStr "ECONNRESET")) "/srv/app" 18 some_fs
     = (Exit 1, some_fs, [JStr "ไม่สามารถเชื่อมต่อฐานข้อมูล:"; JStr "ECONNRESET"] :: log)) /\
  port_accepted port_only = true /\
  port_accepted bad_port = false /\
  fst (fst (startServer_steps bad_port None None "/srv/app" 18 some_fs)) = Exit 1.
Proof.
  split; [| split; [| split; [| split]]].
  - apply (proj1 (start_sequence port_only None None "/srv/app" 18 some_fs)).
    split; reflexivity.
  - apply (proj1 (proj2 (start_sequence port_only None (Some (JStr "ECONNRESET"))
                           "/srv/app" 18 some_fs))).
    right. split; reflexivity.
  - vm_compute. reflexivity.
  - vm_compute. reflexivity.
  - rewrite (proj2 (proj2 (start_sequence bad_port None None "/srv/app" 18 some_fs))).
    vm_compute. reflexivity.
Defined.

(** ** What the error handler writes *)

Lemma normalize_keeps_console (err : ErrObj) (w : World) :
  console (snd (normalize err w)) = console w.
Proof.
  unfold normalize.
  destruct (is_str (err_name err) "SequelizeValidationError");
    [| destruct (is_str (err_name err) "SequelizeUniqueConstraintError");
       [| destruct (is_str (err_name err) "JsonWebTokenError")]];
    unfold mbind, eff_bind, lift, res_status;
    try (destruct (errors_map (err_errors err))); try reflexivity;
    simpl; (etrans; [apply res_json_frame | reflexivity]).
Qed.

(** Whatever the branch, and also when the handler throws, the error is
    logged first: two lines with the message and the stack in server.js, one
    record with message, stack, route, method and address in the first
    variant.  The stack goes to the console only: no response body has a
    [stack] key. *)
Theorem errors_are_logged (err : ErrObj) (req : Request) (w : World) :
  console (snd (errorHandler err req w))
  = [JStr "Stack:"; err_stack err] :: [JStr "Error:"; err_message err] :: console w /\
  console (snd (errorHandler_detailed err req w))
  = [JStr "🚨 ERROR:";
     JObj [("message", err_message err); ("stack", err_stack err);
           ("route", JStr (originalUrl req)); ("method", JStr (method req));
           ("ip", JStr (ip req))]] :: console w /\
  (forall s, responds (errorHandler err req) w s \/ responds (errorHandler_detailed err req) w s ->
     field "stack" (sent_body s) = None).
Proof.
  split; [| split].
  - change (errorHandler err req w)
      with (normalize err {| res := res w; hits := hits w;
                             console := [JStr "Stack:"; err_stack err]
                                        :: [JStr "Error:"; err_message err] :: console w |}).
    apply normalize_keeps_console.
  - change (errorHandler_detailed err req w)
      with (normalize err {| res := res w; hits := hits w;
                             console := [JStr "🚨 ERROR:";
                                         JObj [("message", err_message err);
                                               ("stack", err_stack err);
                                               ("route", JStr (originalUrl req));
                                               ("method", JStr (method req));
                                               ("ip", JStr (ip req))]] :: console w |}).
    apply normalize_keeps_console.
  - intros s H.
    assert (Hn : exists w0, responds (normalize err) w0 s).
    { destruct H as [(w1 & Hrun & Hsent) | (w1 & Hrun & Hsent)].
      - destruct (errorHandler_normalize err req w) as (w0 & Hres & _ & Heq).
        exists w0, w1. rewrite <- Heq, Hres. split; assumption.
      - destruct (errorHandler_detailed_normalize err req w) as (w0 & Hres & _ & Heq).
        exists w0, w1. rewrite <- Heq, Hres. split; assumption. }
    destruct Hn as [w0 Hn].
    destruct (normalize_reply err w0 s Hn) as [(_ & m & errs & _ & Hb) | (_ & m & Hb)];
      rewrite Hb; reflexivity.
Qed.

Lemma errors_are_logged_witness :
  field "stack" (envelope (JStr msg_invalid_token)) = None.
Proof.
  apply (proj2 (proj2 (errors_are_logged token_error (get "/api/user" None 0) idle))
           {| sent_status := JNum 401; sent_body := envelope (JStr msg_invalid_token) |}).
  left. eexists. split; reflexivity.
Defined.

(** ** Where the stack ends *)

(** A handler that ends the response never calls [next()]: it is done, or
    what it threw is passed on. *)
Lemma terminal_signal (h : Eff unit) (w : World) :
  (exists w', terminal h w = (Done, w')) \/
  (exists ex w', terminal h w = (NextErr (exn_obj ex), w')).
Proof.
  unfold terminal. destruct (h w) as [[u | ex] w']; [left | right]; eauto.
Qed.

Lemma terminal_not_next (h : Eff unit) (w : World) : fst (terminal h w) <> Next.
Proof.
  destruct (terminal_signal h w) as [(w' & ->) | (ex & w' & ->)]; discriminate.
Qed.

(** A stack that ends with an error handler and a last handler neither of
    which calls [next()] is never left without a pending error. *)
Lemma dispatch_ends (front : list Layer) (eh : ErrorMiddleware) (nf : Middleware)
    (req : Request) :
  Forall ordinary front ->
  (forall e w, fst (eh e req w) <> Next) ->
  (forall w, fst (nf req w) <> Next) ->
  forall pending w,
    fst (dispatch (front ++ [use_err eh; use nf]) pending req w) <> Unhandled None.
Proof.
  intros Hfront Heh Hnf.
  induction Hfront as [| l front Hl _ IH]; intros pending w.
  - cbn [app dispatch use use_err mount handle mount_matches String.eqb Ascii.eqb Bool.eqb].
    destruct pending as [e |].
    + specialize (Heh e w). destruct (eh e req w) as [[| e' |] w'];
        [contradiction | discriminate | discriminate].
    + specialize (Hnf w). destruct (nf req w) as [[| e' |] w'];
        [contradiction | discriminate | discriminate].
  - simpl. unfold ordinary in Hl. destruct (handle l) as [f |]; [| contradiction].
    destruct (mount_matches (mount l) (path req)); [| apply IH].
    destruct pending as [e |]; [apply IH |].
    destruct (f req w) as [[| e' |] w']; [apply IH | apply IH | discriminate].
Qed.

Lemma admission_ordinary (x : Externals) (env : gmap string string) :
  Forall ordinary (admission x env).
Proof.
  unfold admission. apply Forall_app. split; [repeat constructor |].
  do 2 (constructor; [exact I |]). apply Forall_app; split; [repeat constructor |].
  apply Forall_app; split; [apply statics_ordinary | apply routes_ordinary].
Qed.

(** In each of the three files the stack is never left with no error
    pending, so Express's own "Cannot GET" page is out of reach: either some
    layer keeps the request (it does not call [next]; in the last resort
    that is the 404 handler), or the stack is left with an error pending. *)
Theorem stack_always_ends (x : Externals) (env : gmap string string)
    (req : Request) (w : World) :
  fst (dispatch (Server.app x env) None req w) <> Unhandled None /\
  fst (dispatch (Https.app x env) None req w) <> Unhandled None /\
  fst (dispatch (Env.app x env) None req w) <> Unhandled None.
Proof.
  split; [| split].
  - apply (dispatch_ends (admission x env)
             (fun err r => terminal (errorHandler err r))
             (fun r => terminal (notFound r)) req).
    + apply admission_ordinary.
    + intros e w0. apply terminal_not_next.
    + intros w0. apply terminal_not_next.
  - apply (dispatch_ends
             (Https.security x env ++ use_at "/api/" Https.limiter
                :: use (cors Https.cors_options) :: Https.parsers x ++ statics x ++ routes x)
             (fun err r => terminal (errorHandler_detailed err r))
             (fun r => terminal (notFound r)) req).
    + apply Forall_app. split; [repeat constructor |].
      do 2 (constructor; [exact I |]). apply Forall_app; split; [repeat constructor |].
      apply Forall_app; split; [apply statics_ordinary | apply routes_ordinary].
    + intros e w0. apply terminal_not_next.
    + intros w0. apply terminal_not_next.
  - apply (dispatch_ends
             (Env.security x env ++ use_at "/api/" Env.limiter
                :: use (cors (Env.cors_options env)) :: Env.parsers x ++ statics x ++ routes x)
             (fun err r => terminal (errorHandler err r))
             (fun r => terminal (notFound_echo r)) req).
    + apply Forall_app. split; [repeat constructor |].
      do 2 (constructor; [exact I |]). apply Forall_app; split; [repeat constructor |].
      apply Forall_app; split; [apply statics_ordinary | apply routes_ordinary].
    + intros e w0. apply terminal_not_next.
    + intros w0. apply terminal_not_next.
Qed.

(** Whichever layer before the error handler raises an error in server.js,
    the dispatch goes straight to the error handler with that error.  If
    nothing has been written and the error is one the handler has an answer
    for (a data-layer name with a list of errors, a token error, or a status
    Node accepts), the request is answered exactly once, there; if it is not,
    the handler's exception leaves the stack and nothing is written. *)
Theorem errors_funnel (x : Externals) (env : gmap string string) (req : Request)
    (w w1 w2 : World) (l1 l2 : list Layer) (L : Layer) (f : Middleware) (e : ErrObj) :
  admission x env = l1 ++ L :: l2 ->
  through l1 req w = Some w1 ->
  mount_matches (mount L) (path req) = true ->
  handle L = Mw f ->
  f req w1 = (NextErr e, w2) ->
  dispatch (Server.app x env) None req w = finish (terminal (errorHandler e req) w2) /\
  (answerable e = true -> sent (res w2) = [] ->
   exists w3 s, dispatch (Server.app x env) None req w = (Responded, w3) /\
                sent (res w3) = [s]) /\
  (answerable e = false ->
   exists ex w3, dispatch (Server.app x env) None req w = (Unhandled (Some (exn_obj ex)), w3) /\
                 sent (res w3) = sent (res w2)).
Proof.
  intros Hsplit Hpre Hm Hh Hf.
  assert (Hrun : dispatch (Server.app x env) None req w
                 = finish (terminal (errorHandler e req) w2)).
  { change (Server.app x env) with (admission x env ++ Server.fallbacks).
    rewrite Hsplit, <- app_assoc, (dispatch_through _ _ req w w1 Hpre).
    cbn [app dispatch]. rewrite Hm, Hh, Hf.
    rewrite dispatch_error_skips.
    - unfold Server.fallbacks.
      cbn [dispatch use use_err mount handle mount_matches String.eqb Ascii.eqb Bool.eqb].
      destruct (terminal_signal (errorHandler e req) w2) as [(w3 & ->) | (ex & w3 & ->)];
        reflexivity.
    - pose proof (admission_ordinary x env) as Hord. rewrite Hsplit in Hord.
      apply Forall_app in Hord as [_ Hord]. inversion Hord; assumption. }
  split; [exact Hrun |]. split.
  - intros Hwf Hfresh. destruct (errorHandler_normalize e req w2) as (w0 & Hres & _ & Heq).
    destruct (normalize_responds e w0 Hwf) as (s & w3 & Hn & Hsent).
    exists w3, s. rewrite Hrun. unfold terminal. rewrite Heq, Hn.
    split; [reflexivity |]. rewrite Hsent, Hres, Hfresh. reflexivity.
  - intros Hwf. destruct (proj1 (errorHandler_throws e req w2 Hwf)) as (ex & w3 & Hthrow & Hsent).
    exists ex, w3. rewrite Hrun. unfold terminal. rewrite Hthrow.
    split; [reflexivity | exact Hsent].
Qed.

Lemma errors_funnel_witness :
  exists w3 s, dispatch (Server.app oversize ∅) None (get "/api/user" front_origin 0) idle
               = (Responded, w3) /\
               sent (res w3) = [s] /\
               s = {| sent_status := JNum 413;
                      sent_body := envelope (JStr "request entity too large") |}.
Proof.
  destruct (errors_funnel oversize ∅ (get "/api/user" front_origin 0) idle
              (snd (cors Server.cors_options (get "/api/user" front_origin 0)
                         (snd (Server.limiter (get "/api/user" front_origin 0) idle))))
              (snd (cors Server.cors_options (get "/api/user" front_origin 0)
                         (snd (Server.limiter (get "/api/user" front_origin 0) idle))))
              (Server.security oversize ∅
                 ++ [use_at "/api/" Server.limiter; use (cors Server.cors_options)])
              (use (ext (express_urlencoded oversize "100kb")) :: statics oversize
                 ++ routes oversize)
              (use (ext (express_json oversize "100kb")))
              (ext (express_json oversize "100kb")) payload_error)
    as (Hrun & _).
  - reflexivity.
  - vm_compute. reflexivity.
  - reflexivity.
  - reflexivity.
  - reflexivity.
  - do 2 eexists. split; [exact Hrun |]. split; reflexivity.
Defined.

(** ** Which layers see which paths *)

Lemma strip_prefix_ci_app (m1 m2 p : string) :
  strip_prefix_ci (m1 ++ m2)%string p = strip_prefix_ci m1 p ≫= strip_prefix_ci m2.
Proof.
  revert p. induction m1 as [| a m1 IH]; intros p; simpl; [reflexivity |].
  destruct p as [| b p]; [reflexivity |].
  destruct (Ascii.eqb (lower a) (lower b)); [apply IH | reflexivity].
Qed.

(** Two mount paths that part ways after a common beginning cannot both be
    a prefix of one path. *)
Lemma strip_diverge (m m1 m2 p r1 r2 : string) (a b : ascii) :
  strip_prefix_ci (m ++ String a m1)%string p = Some r1 ->
  strip_prefix_ci (m ++ String b m2)%string p = Some r2 ->
  lower a = lower b.
Proof.
  rewrite !strip_prefix_ci_app. destruct (strip_prefix_ci m p) as [r |]; simpl;
    [| discriminate].
  destruct r as [| c r]; [discriminate |].
  destruct (Ascii.eqb_spec (lower a) (lower c)) as [-> |]; [| discriminate].
  destruct (Ascii.eqb_spec (lower b) (lower c)) as [-> |]; [| discriminate].
  reflexivity.
Qed.

Lemma mount_matches_strip (m p : string) :
  String.eqb m "/" = false ->
  mount_matches m p = true ->
  exists r, strip_prefix_ci (loosen m) p = Some r /\
            (r = EmptyString \/ exists r', r = String "/" r').
Proof.
  unfold mount_matches. intros ->.
  destruct (strip_prefix_ci (loosen m) p) as [[| c r] |]; try discriminate.
  - intros _. eauto.
  - intros H. apply Ascii.eqb_eq in H. subst c. eauto.
Qed.

(** A mount path below ["/api"] matches only paths that the mount path
    ['/api/'] matches. *)
Lemma below_api (tail p : string) :
  String.eqb ("/api" ++ String "/" tail) "/" = false ->
  mount_matches ("/api" ++ String "/" tail) p = true ->
  mount_matches "/api/" p = true.
Proof.
  intros Hroot Hm. destruct tail as [| c tail]; [exact Hm |].
  destruct (mount_matches_strip _ _ Hroot Hm) as (r & Hr & _).
  assert (Hl : loosen ("/api" ++ String "/" (String c tail))
               = ("/api" ++ String "/" (loosen (String c tail)))%string) by reflexivity.
  rewrite Hl, strip_prefix_ci_app in Hr.
  unfold mount_matches. cbn [String.eqb Ascii.eqb Bool.eqb loosen].
  destruct (strip_prefix_ci "/api" p) as [[| c1 r1] |]; try discriminate.
  cbn [mbind option_bind strip_prefix_ci] in Hr.
  change (lower "/") with "/"%char in Hr. rewrite lower_slash in Hr.
  destruct (Ascii.eqb_spec "/" c1) as [<- |]; [reflexivity | discriminate].
Qed.

Lemma routes_below_api (x : Externals) (p : string) (l : Layer) :
  l ∈ routes x -> mount_matches (mount l) p = true -> mount_matches "/api/" p = true.
Proof.
  intros Hl. unfold routes in Hl.
  repeat (apply elem_of_cons in Hl as [-> | Hl]); cbn [mount use_at];
    [ apply (below_api "auth" p eq_refl)
    | apply (below_api "user" p eq_refl)
    | apply (below_api "faculty" p eq_refl)
    | apply (below_api "" p eq_refl)
    | apply (below_api "category" p eq_refl)
    | intros H; exact H
    | apply (below_api "profile" p eq_refl)
    | apply (below_api "" p eq_refl)
    | apply (below_api "notifications" p eq_refl)
    | apply (below_api "" p eq_refl)
    | apply elem_of_nil in Hl; contradiction ].
Qed.

(** Every path on which one of the ten routers is mounted is a path of the
    limiter's mount ['/api/'], so no router can be reached around the
    limiter; the routers mounted at ['/api'] or ['/api/'] get exactly the
    limiter's paths. *)
Theorem limiter_covers_routes (x : Externals) (p : string) (l : Layer) :
  l ∈ routes x ->
  (mount_matches (mount l) p = true -> mount_matches "/api/" p = true) /\
  (mount l = "/api" \/ mount l = "/api/" ->
   mount_matches (mount l) p = mount_matches "/api/" p).
Proof.
  intros Hl. split; [apply (routes_below_api x); exact Hl |].
  intros [-> | ->]; reflexivity.
Qed.

Lemma limiter_covers_routes_witness :
  mount_matches "/api/" "/API/user/7" = true.
Proof.
  apply (proj1 (limiter_covers_routes passive "/API/user/7"
                  (use_at "/api/user" (ext (userRoutes passive)))
                  ltac:(unfold routes; right; left)) eq_refl).
Defined.

Lemma static_strip (p : string) :
  mount_matches "/uploads" p = true \/ mount_matches "/uploadsfile" p = true ->
  exists r, strip_prefix_ci ("/" ++ String "u" "ploads") p = Some r.
Proof.
  intros [H | H].
  - destruct (mount_matches_strip "/uploads" _ eq_refl H) as (r & Hr & _). eauto.
  - destruct (mount_matches_strip "/uploadsfile" _ eq_refl H) as (r & Hr & _).
    change (loosen "/uploadsfile") with ("/uploads" ++ "file")%string in Hr.
    rewrite strip_prefix_ci_app in Hr.
    destruct (strip_prefix_ci "/uploads" p) as [r1 |] eqn:E; [eauto | discriminate].
Qed.

Lemma static_off_api (p : string) :
  mount_matches "/uploads" p = true \/ mount_matches "/uploadsfile" p = true ->
  mount_matches "/api/" p = false.
Proof.
  intros H. destruct (static_strip p H) as (r1 & Hr1).
  destruct (mount_matches "/api/" p) eqn:E; [| reflexivity].
  destruct (mount_matches_strip "/api/" _ eq_refl E) as (r2 & Hr2 & _).
  pose proof (strip_diverge "/" "ploads" "pi" p r1 r2 "u" "a" Hr1 Hr2) as Hd.
  vm_compute in Hd. discriminate.
Qed.

(** A request for a static file (a path on the mount ['/uploads'] or
    ['/uploadsfile']) is on neither the limiter's mount nor any router's, the
    two static mounts never both match, and in each of the three files such a
    request leaves the counter table unchanged. *)
Theorem statics_not_limited (x : Externals) (env : gmap string string)
    (req : Request) (w : World) :
  mount_matches "/uploads" (path req) = true \/
  mount_matches "/uploadsfile" (path req) = true ->
  mount_matches "/api/" (path req) = false /\
  (forall l, l ∈ routes x -> mount_matches (mount l) (path req) = false) /\
  ~ (mount_matches "/uploads" (path req) = true /\
     mount_matches "/uploadsfile" (path req) = true) /\
  hits (snd (dispatch (Server.app x env) None req w)) = hits w /\
  hits (snd (dispatch (Https.app x env) None req w)) = hits w /\
  hits (snd (dispatch (Env.app x env) None req w)) = hits w.
Proof.
  intros H. pose proof (static_off_api _ H) as Hapi.
  split; [exact Hapi |]. split; [| split; [| split; [| split]]].
  - intros l Hl. destruct (mount_matches (mount l) (path req)) eqn:E; [| reflexivity].
    rewrite (routes_below_api x _ l Hl E) in Hapi. discriminate.
  - intros [H1 H2].
    destruct (mount_matches_strip "/uploads" _ eq_refl H1) as (r1 & Hr1 & Hb).
    destruct (mount_matches_strip "/uploadsfile" _ eq_refl H2) as (r2 & Hr2 & _).
    change (loosen "/uploads") with "/uploads" in Hr1.
    change (loosen "/uploadsfile") with ("/uploads" ++ "file")%string in Hr2.
    rewrite strip_prefix_ci_app, Hr1 in Hr2.
    destruct Hb as [-> | (r' & ->)]; discriminate.
  - apply (frame_of_bare "/api/" Server.limiter _ _ (server_bare_keeps_hits x env) req w Hapi).
  - apply (frame_of_bare "/api/" Https.limiter _ _ (https_bare_keeps_hits x env) req w Hapi).
  - apply (frame_of_bare "/api/" Env.limiter _ _ (env_bare_keeps_hits x env) req w Hapi).
Qed.

Lemma statics_not_limited_witness :
  hits (snd (dispatch (Server.app passive ∅) None (get "/Uploads/poster.png" None 0) busy))
  = at_limit.
Proof.
  destruct (statics_not_limited passive ∅ (get "/Uploads/poster.png" None 0) busy)
    as (_ & _ & _ & H & _); [left; reflexivity | exact H].
Defined.

Lemma shadowed_first (p m : string) :
  m ∈ shadowed_mounts -> mount_matches m p = true ->
  mount_matches "/api/" p = true /\
  mount_matches "/api/auth" p = false /\
  mount_matches "/api/user" p = false /\
  mount_matches "/api/faculty" p = false.
Proof.
  intros Hm Hp. unfold shadowed_mounts in Hm.
  assert (Hdiv : forall m' a t' b t,
            mount_matches m' p = true ->
            loosen m' = ("/api/" ++ String a t')%string -> String.eqb m' "/" = false ->
            loosen m = ("/api/" ++ String b t)%string -> String.eqb m "/" = false ->
            lower a = lower b).
  { intros m' a t' b t Hm' Hl' Hr' Hl Hr.
    destruct (mount_matches_strip _ _ Hr' Hm') as (r1 & Hr1 & _).
    destruct (mount_matches_strip _ _ Hr Hp) as (r2 & Hr2 & _).
    rewrite Hl' in Hr1. rewrite Hl in Hr2. exact (strip_diverge _ _ _ _ _ _ _ _ Hr1 Hr2). }
  repeat (apply elem_of_cons in Hm as [-> | Hm]); [| | | apply elem_of_nil in Hm; contradiction].
  - split; [exact (below_api "category" p eq_refl Hp) |].
    repeat split.
    + destruct (mount_matches "/api/auth" p) eqn:E; [| reflexivity].
      pose proof (Hdiv "/api/auth" "a"%char "uth" "c"%char "ategory" E
                    eq_refl eq_refl eq_refl eq_refl) as Hd. vm_compute in Hd. discriminate.
    + destruct (mount_matches "/api/user" p) eqn:E; [| reflexivity].
      pose proof (Hdiv "/api/user" "u"%char "ser" "c"%char "ategory" E
                    eq_refl eq_refl eq_refl eq_refl) as Hd. vm_compute in Hd. discriminate.
    + destruct (mount_matches "/api/faculty" p) eqn:E; [| reflexivity].
      pose proof (Hdiv "/api/faculty" "f"%char "aculty" "c"%char "ategory" E
                    eq_refl eq_refl eq_refl eq_refl) as Hd. vm_compute in Hd. discriminate.
  - split; [exact (below_api "profile" p eq_refl Hp) |].
    repeat split.
    + destruct (mount_matches "/api/auth" p) eqn:E; [| reflexivity].
      pose proof (Hdiv "/api/auth" "a"%char "uth" "p"%char "rofile" E
                    eq_refl eq_refl eq_refl eq_refl) as Hd. vm_compute in Hd. discriminate.
    + destruct (mount_matches "/api/user" p) eqn:E; [| reflexivity].
      pose proof (Hdiv "/api/user" "u"%char "ser" "p"%char "rofile" E
                    eq_refl eq_refl eq_refl eq_refl) as Hd. vm_compute in Hd. discriminate.
    + destruct (mount_matches "/api/faculty" p) eqn:E; [| reflexivity].
      pose proof (Hdiv "/api/faculty" "f"%char "aculty" "p"%char "rofile" E
                    eq_refl eq_refl eq_refl eq_refl) as Hd. vm_compute in Hd. discriminate.
  - split; [exact (below_api "notifications" p eq_refl Hp) |].
    repeat split.
    + destruct (mount_matches "/api/auth" p) eqn:E; [| reflexivity].
      pose proof (Hdiv "/api/auth" "a"%char "uth" "n"%char "otifications" E
                    eq_refl eq_refl eq_refl eq_refl) as Hd. vm_compute in Hd. discriminate.
    + destruct (mount_matches "/api/user" p) eqn:E; [| reflexivity].
      pose proof (Hdiv "/api/user" "u"%char "ser" "n"%char "otifications" E
                    eq_refl eq_refl eq_refl eq_refl) as Hd. vm_compute in Hd. discriminate.
    + destruct (mount_matches "/api/faculty" p) eqn:E; [| reflexivity].
      pose proof (Hdiv "/api/faculty" "f"%char "aculty" "n"%char "otifications" E
                    eq_refl eq_refl eq_refl eq_refl) as Hd. vm_compute in Hd. discriminate.
Qed.

(** The file router, mounted at ['/api/'] ahead of the category, profile and
    notification routers, is the first router to see a request for one of
    their paths; when it ends the response, the dedicated router is never
    called. *)
Theorem root_router_first (x : Externals) (req : Request) (w : World)
    (rest : list Layer) (m : string) (r : Res) :
  m ∈ shadowed_mounts ->
  mount_matches m (path req) = true ->
  fileRoutes x req (res w) = (Done, r) ->
  dispatch (routes x ++ rest) None req w = (Responded, with_res (fun _ => r) w).
Proof.
  intros Hm Hp Hfile.
  destruct (shadowed_first _ _ Hm Hp) as (Hapi & Hauth & Huser & Hfac).
  unfold routes. cbn [app dispatch use_at mount handle].
  rewrite Hauth, Huser, Hfac, Hapi. unfold ext. rewrite Hfile. reflexivity.
Qed.

Lemma root_router_first_witness :
  dispatch (routes greedy ++ Server.fallbacks) None (get "/api/category/3" None 0) idle
  = (Responded, idle).
Proof.
  apply (root_router_first greedy (get "/api/category/3" None 0) idle Server.fallbacks
           "/api/category" fresh_res).
  - left.
  - reflexivity.
  - reflexivity.
Defined.

(** ** The order of limiter, CORS stage and redirect *)

Lemma through_keeps_hits (stack : list Layer) (req : Request) :
  Forall keeps_hits stack ->
  forall w w1, through stack req w = Some w1 -> hits w1 = hits w.
Proof.
  induction 1 as [| l stack Hl _ IH]; intros w w1 H; simpl in H.
  - injection H as ->. reflexivity.
  - destruct (mount_matches (mount l) (path req)); [| apply IH; exact H].
    unfold keeps_hits in Hl. destruct (handle l) as [f | f]; [| apply IH; exact H].
    specialize (Hl req w). destruct (f req w) as [[| e |] w']; try discriminate.
    rewrite (IH _ _ H). exact Hl.
Qed.

Lemma limiter_then_downstream (o : LimitOptions) (front rest : list Layer)
    (req : Request) (w w1 : World) :
  through front req w = Some w1 ->
  mount_matches "/api/" (path req) = true ->
  dispatch (front ++ use_at "/api/" (rateLimit o) :: rest) None req w
  = if max o <? count (hit o (ip req) (now req) (hits w1))
    then (Responded, snd (rateLimit o req w1))
    else dispatch rest None req (snd (rateLimit o req w1)).
Proof.
  intros Hpre Hm. rewrite (dispatch_through _ _ req w w1 Hpre).
  cbn [dispatch use_at mount handle]. rewrite Hm. unfold rateLimit.
  destruct (max o <? count (hit o (ip req) (now req) (hits w1))); reflexivity.
Qed.

(** In server.js the limiter stands before the CORS stage and the routers:
    a request on the API mount that has come past the security layers is
    counted exactly once, whatever happens to it afterwards (refused origin,
    no matching route, an error in a router). *)
Theorem api_requests_counted (x : Externals) (env : gmap string string)
    (req : Request) (w w1 : World) :
  through (Server.security x env) req w = Some w1 ->
  mount_matches "/api/" (path req) = true ->
  hits (snd (dispatch (Server.app x env) None req w))
  = <[ip req := hit Server.limiter_options (ip req) (now req) (hits w)]> (hits w).
Proof.
  intros Hpre Hm.
  pose proof (server_bare_keeps_hits x env) as Hbare.
  apply Forall_app in Hbare as [Hsec Hdown].
  pose proof (through_keeps_hits _ req Hsec w w1 Hpre) as Hw1.
  unfold Server.app, Server.limiter.
  rewrite (limiter_then_downstream Server.limiter_options _ _ req w w1 Hpre Hm).
  destruct (max Server.limiter_options <? _).
  - cbn [snd]. rewrite rateLimit_hits, Hw1. reflexivity.
  - rewrite (dispatch_keeps_hits _ req Hdown), rateLimit_hits, Hw1. reflexivity.
Qed.

Lemma api_requests_counted_witness :
  hits (snd (dispatch (Server.app passive ∅) None (get "/api/user" evil_origin 0) idle))
    !! client = Some {| count := 1; resetTime := 6000000 |}.
Proof.
  rewrite (api_requests_counted passive ∅ (get "/api/user" evil_origin 0) idle idle
             eq_refl eq_refl).
  reflexivity.
Defined.

(** In server.js a request over the limit is answered by the limiter and
    goes no further: whatever is mounted after the limiter -- the CORS stage
    with its origin function, the parsers, the routers, the fallbacks -- has
    no part in the outcome, which would be the same with any other layers in
    their place. *)
Theorem limited_before_cors (x : Externals) (env : gmap string string)
    (req : Request) (w w1 : World) (rest : list Layer) :
  through (Server.security x env) req w = Some w1 ->
  mount_matches "/api/" (path req) = true ->
  max Server.limiter_options
  < count (hit Server.limiter_options (ip req) (now req) (hits w1)) ->
  fst (dispatch (Server.app x env) None req w) = Responded /\
  dispatch (Server.security x env ++ use_at "/api/" Server.limiter :: rest) None req w
  = dispatch (Server.app x env) None req w.
Proof.
  intros Hpre Hm Hover.
  unfold Server.app, Server.limiter.
  rewrite !(limiter_then_downstream Server.limiter_options _ _ req w w1 Hpre Hm).
  assert (E : (max Server.limiter_options
               <? count (hit Server.limiter_options (ip req) (now req) (hits w1))) = true)
    by lia.
  rewrite E. split; reflexivity.
Qed.

Lemma limited_before_cors_witness :
  fst (dispatch (Server.app passive ∅) None (get "/api/user" evil_origin 5000) busy)
  = Responded /\
  dispatch (Server.security passive ∅ ++ use_at "/api/" Server.limiter :: []) None
           (get "/api/user" evil_origin 5000) busy
  = dispatch (Server.app passive ∅) None (get "/api/user" evil_origin 5000) busy.
Proof.
  apply (limited_before_cors passive ∅ (get "/api/user" evil_origin 5000) busy busy []
           eq_refl eq_refl).
  vm_compute. reflexivity.
Defined.

Lemma before_redirect_keeps_hits (x : Externals) (env : gmap string string) :
  Forall keeps_hits (before_redirect x env).
Proof. repeat constructor; apply use_keeps_hits. Qed.

(** In the first variant the redirect stands before the limiter.  In
    production, a request that did not arrive with x-forwarded-proto: https
    and has come past the layers before the redirect is handed to
    [res.redirect] with the target https://host+url; the limiter does not
    count it; and when [res.redirect] returns, the request goes no further:
    [res] is as [res.redirect] left it, the CORS stage and the routers are
    not reached.  Outside production, or over https, the stack behaves as if
    the redirect layer were not there. *)
Theorem https_redirect_first (x : Externals) (env : gmap string string)
    (req : Request) (w w1 : World) :
  through (before_redirect x env) req w = Some w1 ->
  (getenv env "NODE_ENV" = Some "production" /\ forwarded_proto req <> Some "https" ->
   hits (snd (dispatch (Https.app x env) None req w)) = hits w /\
   forall r,
     redirect x ("https://" ++ Https.splice (host req) ++ url req)%string req (res w1)
     = (None, r) ->
     dispatch (Https.app x env) None req w = (Responded, with_res (fun _ => r) w1)) /\
  (getenv env "NODE_ENV" <> Some "production" \/ forwarded_proto req = Some "https" ->
   dispatch (Https.app x env) None req w
   = dispatch (before_redirect x env ++ use_at "/api/" Https.limiter :: Https.downstream x)
              None req w).
Proof.
  intros Hpre.
  assert (Happ : Https.app x env
                 = before_redirect x env
                     ++ use (Https.forceHttps x env)
                     :: use_at "/api/" Https.limiter :: Https.downstream x) by reflexivity.
  pose proof (through_keeps_hits _ req (before_redirect_keeps_hits x env) w w1 Hpre) as Hw1.
  split.
  - intros [Hprod Hproto]. rewrite Happ, (dispatch_through _ _ req w w1 Hpre).
    cbn [dispatch use mount handle mount_matches String.eqb Ascii.eqb Bool.eqb].
    unfold Https.forceHttps.
    rewrite (bool_decide_eq_false_2 _ Hproto), (bool_decide_eq_true_2 _ Hprod).
    cbn [negb andb].
    destruct (redirect x _ req (res w1)) as [[e |] r0]; cbv beta iota zeta.
    + split; [| intros r Hr; discriminate].
      assert (Hskip : forall w0,
                hits (snd (dispatch (Https.downstream x) (Some e) req w0)) = hits w0).
      { intros w0.
        change (Https.downstream x)
          with ((use (cors Https.cors_options)
                   :: Https.parsers x ++ statics x ++ routes x) ++ Https.fallbacks).
        rewrite dispatch_error_skips.
        - apply (dispatch_keeps_hits Https.fallbacks req).
          unfold Https.fallbacks. constructor; [apply error_layer_keeps_hits |].
          constructor; [| constructor].
          apply fallbacks_keep_hits. intros req0 w2.
          unfold notFound, mbind, eff_bind, res_status.
          etrans; [apply res_json_frame | reflexivity].
        - constructor; [exact I |]. apply Forall_app; split; [repeat constructor |].
          apply Forall_app; split; [apply statics_ordinary | apply routes_ordinary]. }
      cbn [use_at handle mount].
      destruct (mount_matches "/api/" (path req)); rewrite Hskip; exact Hw1.
    + split; [exact Hw1 |]. intros r Hr. injection Hr as ->. reflexivity.
  - intros Hoff. rewrite Happ, !(dispatch_through _ _ req w w1 Hpre).
    cbn [dispatch use mount handle mount_matches String.eqb Ascii.eqb Bool.eqb].
    unfold Https.forceHttps.
    destruct Hoff as [Hdev | Hsecure].
    + rewrite (bool_decide_eq_false_2 _ Hdev), andb_false_r. reflexivity.
    + rewrite (bool_decide_eq_true_2 _ Hsecure). reflexivity.
Qed.

Lemma https_redirect_first_witness :
  hits (snd (dispatch (Https.app passive production) None plain_http busy)) = at_limit /\
  dispatch (Https.app passive production) None plain_http busy
  = (Responded,
     with_res (fun _ => snd (found "https://api.example.org/api/user?page=2" plain_http
                                   fresh_res)) busy).
Proof.
  destruct (proj1 (https_redirect_first passive production plain_http busy busy eq_refl))
    as (Hh & Hr).
  - split; [reflexivity | discriminate].
  - split; [exact Hh |]. apply Hr. reflexivity.
Defined.
